(** * Tree-shaking of annotated code: the Babel plugin
      [scripts/babel-plugins/babel-plugin-tree-shake-employee-code.js]

    A shallow embedding of the plugin: the syntax tree it walks, its
    helper functions, the visitors of the seeding traversal (started by
    [Program.enter]) and of the main traversal, and the tracker
    [removedImports] threaded through them; then the properties of the
    specification, proved or refuted on it.

    The plugin calls [path.remove()] and [path.replaceWith()] and leaves
    the rest to Babel's traversal, so the embedding carries the part of
    the traversal that these two calls set in motion.
    - A node is a constructor of [node]; an absent child (JavaScript
      [null]) is [Null] and is not visited.  [OtherNode] stands for every
      kind of node that no visitor of the plugin is registered for; it
      carries its type and its fields, by key, in visiting order.
    - Nodes are visited depth first, a node before its children, the
      fields of a node in Babel's order ([keys_of]).
    - [path.remove()] first asks the removal hooks: a statement goes
      with its expression, an export with its declaration, a binary or
      logical expression is replaced by its other operand, the body of an
      arrow function or of a loop and the consequent of an [if] become
      the empty block.  Otherwise a node held in a list is dropped from
      the list and hands its comments to its neighbours
      ([shareCommentsWithSiblings], as Babel has it from 7.20 on: the
      leading comments go to the node before, the trailing ones to the
      node after, all of them to the only neighbour when there is but
      one), and a node held in a single field
      leaves [null] there, which Babel refuses with a [TypeError] when
      the field is not optional.
    - [path.replaceWith(r)] copies the comments of the replaced node
      onto [r] and queues the path again: [r] is visited in its turn.
    - A visit nested deeper than the budget of the traversal stands for
      an exhausted stack ([RangeError]): the traversal throws, as it
      does for the [TypeError] above.  The budget grows with the tree, so
      that only a chain of re-visits without end uses it up.
    - The tracker is the JavaScript [Set] [removedImports]: a list
      without duplicates, in insertion order.
    - Reading [.name] gives [Some s] on an identifier and [None]
      (JavaScript [undefined]) on anything else, [Null] included.
    - Two comments are the same object when they have the same text and
      the same line. *)

From Stdlib Require Import String List Bool Arith Lia.
Import ListNotations.
Open Scope string_scope.

Set Implicit Arguments.
#[local] Set Warnings "-register-all".

(** ** Comments and source positions *)

Record comment := mkComment {
  value : string;          (* comment.value *)
  cloc  : option nat       (* comment.loc.start.line, when loc is present *)
}.

Record meta := mkMeta {
  leadingComments  : list comment;
  trailingComments : list comment;
  loc : option nat         (* node.loc.start.line, when loc is present *)
}.

Definition no_meta : meta := mkMeta [] [] None.

(** ** The syntax tree *)

Inductive literal :=
| NullLiteral
| BooleanLiteral (b : bool)
| NumericLiteral (n : nat)
| StringLiteral (s : string)
| JSXText (s : string).

(** The name of a JSX tag or attribute.  Only a [JSXIdentifier] has a
    string [.name]. *)
Inductive jsxname :=
| JSXIdentifier (name : string)
| JSXMemberExpression (object property : string)
| JSXNamespacedName (namespace name : string).


(** A field of a node that holds nodes: one node under a key, or a
    list of nodes under a key. *)
Inductive part (A : Type) : Type :=
| Single (key : string) (child : A)
| Multiple (key : string) (items : list A).

Inductive node :=
| Null
| Identifier (m : meta) (name : string)
| Literal (m : meta) (l : literal)
| MemberExpression (m : meta) (object property : node)
| CallExpression (m : meta) (callee : node) (arguments : list node)
| ObjectExpression (m : meta) (properties : list node)
| ObjectProperty (m : meta) (key val : node)
| LogicalExpression (m : meta) (operator : string) (left right : node)
| JSXElement (m : meta) (openingElement : meta) (name : jsxname)
             (attributes : list node) (children : list node)
| JSXAttribute (m : meta) (name : jsxname) (val : node)
| JSXExpressionContainer (m : meta) (expression : node)
| ImportDeclaration (m : meta) (source : string) (specifiers : list node)
| ImportSpecifier (m : meta) (imported local : node)
| ImportDefaultSpecifier (m : meta) (local : node)
| ImportNamespaceSpecifier (m : meta) (local : node)
| VariableDeclaration (m : meta) (declarations : list node)
| VariableDeclarator (m : meta) (id init : node)
| FunctionDeclaration (m : meta) (id : node) (params : list node) (body : node)
| ExpressionStatement (m : meta) (expression : node)
| ClassProperty (m : meta) (key val : node)
  (* any other kind of node (ReturnStatement, BlockStatement, ObjectMethod,
     ArrowFunctionExpression, ExportDefaultDeclaration, ...): its type and
     its fields *)
| OtherNode (m : meta) (type : string) (fields : list (part node)).

(** A file: [file.ast.comments] and [program.body]. *)
Record file := mkFile {
  comments : list comment;
  body : list node
}.

Definition meta_of (n : node) : meta :=
  match n with
  | Null => no_meta
  | Identifier m _ | Literal m _ | MemberExpression m _ _
  | CallExpression m _ _ | ObjectExpression m _ | ObjectProperty m _ _
  | LogicalExpression m _ _ _ | JSXElement m _ _ _ _ | JSXAttribute m _ _
  | JSXExpressionContainer m _ | ImportDeclaration m _ _
  | ImportSpecifier m _ _ | ImportDefaultSpecifier m _
  | ImportNamespaceSpecifier m _ | VariableDeclaration m _
  | VariableDeclarator m _ _ | FunctionDeclaration m _ _ _
  | ExpressionStatement m _ | ClassProperty m _ _ | OtherNode m _ _ => m
  end.

(** [n.name], when it is a string. *)
Definition name_of (n : node) : option string :=
  match n with
  | Identifier _ s => Some s
  | _ => None
  end.

(** [x && x.name]-style guards: a name that is present and not the
    empty string. *)
Definition truthy (o : option string) : option string :=
  match o with
  | Some s => if s =? "" then None else Some s
  | None => None
  end.


(** [node.type] *)
Definition type_of (n : node) : string :=
  match n with
  | Null => ""
  | Identifier _ _ => "Identifier"
  | Literal _ NullLiteral => "NullLiteral"
  | Literal _ (BooleanLiteral _) => "BooleanLiteral"
  | Literal _ (NumericLiteral _) => "NumericLiteral"
  | Literal _ (StringLiteral _) => "StringLiteral"
  | Literal _ (JSXText _) => "JSXText"
  | MemberExpression _ _ _ => "MemberExpression"
  | CallExpression _ _ _ => "CallExpression"
  | ObjectExpression _ _ => "ObjectExpression"
  | ObjectProperty _ _ _ => "ObjectProperty"
  | LogicalExpression _ _ _ _ => "LogicalExpression"
  | JSXElement _ _ _ _ _ => "JSXElement"
  | JSXAttribute _ _ _ => "JSXAttribute"
  | JSXExpressionContainer _ _ => "JSXExpressionContainer"
  | ImportDeclaration _ _ _ => "ImportDeclaration"
  | ImportSpecifier _ _ _ => "ImportSpecifier"
  | ImportDefaultSpecifier _ _ => "ImportDefaultSpecifier"
  | ImportNamespaceSpecifier _ _ => "ImportNamespaceSpecifier"
  | VariableDeclaration _ _ => "VariableDeclaration"
  | VariableDeclarator _ _ _ => "VariableDeclarator"
  | FunctionDeclaration _ _ _ _ => "FunctionDeclaration"
  | ExpressionStatement _ _ => "ExpressionStatement"
  | ClassProperty _ _ _ => "ClassProperty"
  | OtherNode _ type _ => type
  end.

(** The fields of a node that hold nodes, by key, in the order in which
    Babel visits them ([VISITOR_KEYS]).  The attributes of an element
    are those of its opening element. *)
Definition keys_of (n : node) : list (part node) :=
  match n with
  | Null | Identifier _ _ | Literal _ _ => []
  | MemberExpression _ object property =>
      [Single "object" object; Single "property" property]
  | CallExpression _ callee arguments =>
      [Single "callee" callee; Multiple "arguments" arguments]
  | ObjectExpression _ properties => [Multiple "properties" properties]
  | ObjectProperty _ key val => [Single "key" key; Single "value" val]
  | LogicalExpression _ _ leftNode rightNode =>
      [Single "left" leftNode; Single "right" rightNode]
  | JSXElement _ _ _ attributes children =>
      [Multiple "attributes" attributes; Multiple "children" children]
  | JSXAttribute _ _ val => [Single "value" val]
  | JSXExpressionContainer _ expression => [Single "expression" expression]
  | ImportDeclaration _ _ specifiers => [Multiple "specifiers" specifiers]
  | ImportSpecifier _ imported local =>
      [Single "imported" imported; Single "local" local]
  | ImportDefaultSpecifier _ local => [Single "local" local]
  | ImportNamespaceSpecifier _ local => [Single "local" local]
  | VariableDeclaration _ declarations => [Multiple "declarations" declarations]
  | VariableDeclarator _ id init => [Single "id" id; Single "init" init]
  | FunctionDeclaration _ id params body =>
      [Single "id" id; Multiple "params" params; Single "body" body]
  | ExpressionStatement _ expression => [Single "expression" expression]
  | ClassProperty _ key val => [Single "key" key; Single "value" val]
  | OtherNode _ _ fields => fields
  end.

(** The node [n] with the fields [ps] in place of its own. *)
Definition rebuild (n : node) (ps : list (part node)) : node :=
  match n, ps with
  | MemberExpression m _ _, [Single _ object; Single _ property] =>
      MemberExpression m object property
  | CallExpression m _ _, [Single _ callee; Multiple _ arguments] =>
      CallExpression m callee arguments
  | ObjectExpression m _, [Multiple _ properties] => ObjectExpression m properties
  | ObjectProperty m _ _, [Single _ key; Single _ val] => ObjectProperty m key val
  | LogicalExpression m operator _ _, [Single _ leftNode; Single _ rightNode] =>
      LogicalExpression m operator leftNode rightNode
  | JSXElement m opening name _ _, [Multiple _ attributes; Multiple _ children] =>
      JSXElement m opening name attributes children
  | JSXAttribute m name _, [Single _ val] => JSXAttribute m name val
  | JSXExpressionContainer m _, [Single _ expression] =>
      JSXExpressionContainer m expression
  | ImportDeclaration m source _, [Multiple _ specifiers] =>
      ImportDeclaration m source specifiers
  | ImportSpecifier m _ _, [Single _ imported; Single _ local] =>
      ImportSpecifier m imported local
  | ImportDefaultSpecifier m _, [Single _ local] => ImportDefaultSpecifier m local
  | ImportNamespaceSpecifier m _, [Single _ local] => ImportNamespaceSpecifier m local
  | VariableDeclaration m _, [Multiple _ declarations] =>
      VariableDeclaration m declarations
  | VariableDeclarator m _ _, [Single _ id; Single _ init] => VariableDeclarator m id init
  | FunctionDeclaration m _ _ _, [Single _ id; Multiple _ params; Single _ body] =>
      FunctionDeclaration m id params body
  | ExpressionStatement m _, [Single _ expression] => ExpressionStatement m expression
  | ClassProperty m _ _, [Single _ key; Single _ val] => ClassProperty m key val
  | OtherNode m type _, _ => OtherNode m type ps
  | _, _ => n
  end.

(** [node[key]] for a field that holds one node, and for one that holds
    a list. *)
Definition field_at (n : node) (key : string) : option node :=
  match find (fun p => match p with
                       | Single k _ => k =? key
                       | Multiple _ _ => false
                       end) (keys_of n) with
  | Some (Single _ x) => Some x
  | _ => None
  end.

Definition items_at (n : node) (key : string) : list node :=
  match find (fun p => match p with
                       | Multiple k _ => k =? key
                       | Single _ _ => false
                       end) (keys_of n) with
  | Some (Multiple _ l) => l
  | _ => []
  end.

(** The node [n] with the comments and the position [m]. *)
Definition set_meta (n : node) (m : meta) : node :=
  match n with
  | Null => Null
  | Identifier _ name => Identifier m name
  | Literal _ l => Literal m l
  | MemberExpression _ object property => MemberExpression m object property
  | CallExpression _ callee arguments => CallExpression m callee arguments
  | ObjectExpression _ properties => ObjectExpression m properties
  | ObjectProperty _ key val => ObjectProperty m key val
  | LogicalExpression _ operator leftNode rightNode =>
      LogicalExpression m operator leftNode rightNode
  | JSXElement _ opening name attributes children =>
      JSXElement m opening name attributes children
  | JSXAttribute _ name val => JSXAttribute m name val
  | JSXExpressionContainer _ expression => JSXExpressionContainer m expression
  | ImportDeclaration _ source specifiers => ImportDeclaration m source specifiers
  | ImportSpecifier _ imported local => ImportSpecifier m imported local
  | ImportDefaultSpecifier _ local => ImportDefaultSpecifier m local
  | ImportNamespaceSpecifier _ local => ImportNamespaceSpecifier m local
  | VariableDeclaration _ declarations => VariableDeclaration m declarations
  | VariableDeclarator _ id init => VariableDeclarator m id init
  | FunctionDeclaration _ id params body => FunctionDeclaration m id params body
  | ExpressionStatement _ expression => ExpressionStatement m expression
  | ClassProperty _ key val => ClassProperty m key val
  | OtherNode _ type fields => OtherNode m type fields
  end.

Definition isNull (n : node) : bool :=
  match n with Null => true | _ => false end.
Definition isIdentifier (n : node) : bool :=
  match n with Identifier _ _ => true | _ => false end.
Definition isMemberExpression (n : node) : bool :=
  match n with MemberExpression _ _ _ => true | _ => false end.
Definition isObjectExpression (n : node) : bool :=
  match n with ObjectExpression _ _ => true | _ => false end.
Definition isJSXElement (n : node) : bool :=
  match n with JSXElement _ _ _ _ _ => true | _ => false end.
Definition isJSXExpressionContainer (n : node) : bool :=
  match n with JSXExpressionContainer _ _ => true | _ => false end.
Definition isImportDeclaration (n : node) : bool :=
  match n with ImportDeclaration _ _ _ => true | _ => false end.

(** What a visitor can see of the nodes above the visited one:
    [path.parent] and [path.parentPath.parent]. *)
Inductive ntype :=
| TProgram | TImportSpecifier | TImportDefaultSpecifier | TImportNamespaceSpecifier
| TObjectExpression | TCallExpression | TAnyOther.

Record ancestor := mkAnc {
  a_type : ntype;
  (* for a CallExpression: callee is a MemberExpression and
     callee.object.name === 'StyleSheet' *)
  a_styleSheetCallee : bool
}.

Record context := mkCtx {
  parent : ancestor;
  grandparent : ancestor
}.

Definition str_eq_opt (o : option string) (s : string) : bool :=
  match o with Some x => x =? s | None => false end.

Definition ancestor_of (n : node) : ancestor :=
  match n with
  | ImportSpecifier _ _ _ => mkAnc TImportSpecifier false
  | ImportDefaultSpecifier _ _ => mkAnc TImportDefaultSpecifier false
  | ImportNamespaceSpecifier _ _ => mkAnc TImportNamespaceSpecifier false
  | ObjectExpression _ _ => mkAnc TObjectExpression false
  | CallExpression _ callee _ =>
      mkAnc TCallExpression
        match callee with
        | MemberExpression _ object _ => str_eq_opt (name_of object) "StyleSheet"
        | _ => false
        end
  | _ => mkAnc TAnyOther false
  end.

Definition program_anc : ancestor := mkAnc TProgram false.
Definition no_anc : ancestor := mkAnc TAnyOther false.
Definition top_ctx : context := mkCtx program_anc no_anc.

(** The context of the children of [n], itself visited in context [c]. *)
Definition child_ctx (c : context) (n : node) : context :=
  mkCtx (ancestor_of n) (parent c).

(** The context of the callee of a call.  A node below the callee that
    has the call as grandparent has the callee itself as parent; the one
    test made on a grandparent call (line 479-483) asks that parent to be
    an ObjectExpression and the callee to be a MemberExpression, and so
    fails there: the callee is visited with the flag off. *)
Definition callee_ctx (c : context) : context :=
  mkCtx (mkAnc TCallExpression false) (parent c).

Definition isImportSpecifierP (c : context) : bool :=
  match a_type (parent c) with TImportSpecifier => true | _ => false end.
Definition isImportDefaultSpecifierP (c : context) : bool :=
  match a_type (parent c) with TImportDefaultSpecifier => true | _ => false end.
Definition isImportNamespaceSpecifierP (c : context) : bool :=
  match a_type (parent c) with TImportNamespaceSpecifier => true | _ => false end.

(** ** The plugin's constants and helpers *)

Definition CRITICAL_MODULES : list string :=
  ["react"; "react-native"; "react/jsx-runtime"; "react/jsx-dev-runtime"].

Definition CRITICAL_IMPORTS : list string :=
  ["StyleSheet"; "View"; "Text"; "_jsx"; "_jsxs"; "_jsxDEV"; "Fragment";
   "jsx"; "jsxs"; "createElement"].

(** [Array.prototype.includes] on an array of strings. *)
Definition includes_str (l : list string) (s : string) : bool :=
  existsb (String.eqb s) l.

(** [String.prototype.includes]. *)
Fixpoint includes (hay needle : string) : bool :=
  if prefix needle hay then true
  else match hay with
       | EmptyString => false
       | String _ rest => includes rest needle
       end.

Definition isCriticalImport (source : string) (importedNames : list string) : bool :=
  if includes_str CRITICAL_MODULES source then true
  else if (source =? "react-native")
          && existsb (includes_str CRITICAL_IMPORTS) importedNames then true
  else if existsb (includes_str CRITICAL_IMPORTS) importedNames then true
  else false.

Definition isEmployeeCodeComment (c : comment) : bool :=
  includes (value c) "@employee-code".

Definition hasEmployeeCodeComment (cs : list comment) : bool :=
  existsb isEmployeeCodeComment cs.

(** [hasEmployeeCodeComment(node.leadingComments) ||
     hasEmployeeCodeComment(node.trailingComments)] *)
Definition hasDirectComment (m : meta) : bool :=
  hasEmployeeCodeComment (leadingComments m)
  || hasEmployeeCodeComment (trailingComments m).

(** The set of line numbers is kept as a list; only membership is used. *)
Definition findEmployeeCodeCommentLines (cs : list comment) : list nat :=
  flat_map (fun c =>
              if isEmployeeCodeComment c then
                match cloc c with
                | Some lineNum => [lineNum; lineNum + 1]
                | None => []
                end
              else []) cs.

Definition has_line (lines : list nat) (l : nat) : bool :=
  existsb (Nat.eqb l) lines.

(** ** The tracker [removedImports] *)

Definition tracker := list string.

Definition has (tr : tracker) (s : string) : bool := existsb (String.eqb s) tr.

Definition add (tr : tracker) (s : string) : tracker :=
  if has tr s then tr else (tr ++ [s])%list.

(** [names.forEach(name => { if (!CRITICAL_IMPORTS.includes(name)) removedImports.add(name) })] *)
Definition add_unless_critical (tr : tracker) (names : list string) : tracker :=
  fold_left (fun t name => if includes_str CRITICAL_IMPORTS name then t else add t name)
            names tr.

(** The name an import specifier contributes to [importedNames]:
    [spec.imported ? (spec.local ? spec.local.name : spec.imported.name)
                   : spec.local ? spec.local.name : null]. *)
Definition specifierName (spec : node) : option string :=
  match spec with
  | ImportSpecifier _ imported local =>
      if isNull imported then (if isNull local then None else name_of local)
      else (if isNull local then name_of imported else name_of local)
  | ImportDefaultSpecifier _ local
  | ImportNamespaceSpecifier _ local =>
      if isNull local then None else name_of local
  | _ => None
  end.

(** [specifiers.map(...).filter(Boolean)] *)
Definition importedNames (specifiers : list node) : list string :=
  flat_map (fun spec => match truthy (specifierName spec) with
                        | Some s => [s]
                        | None => []
                        end) specifiers.

(** ** The removal decision: [shouldRemoveNode]

    [prev] is [path.getPrevSibling().node] ([Null] when there is none)
    and [lines] is the argument [employeeCodeLines] ([None] for the
    JavaScript [null]).  The function both answers and updates the
    tracker, so it returns the tracker with its answer. *)

(** [name.name] of a JSX tag, when it is a non-empty string. *)
Definition elementName (name : jsxname) : option string :=
  match name with
  | JSXIdentifier s => truthy (Some s)
  | _ => None
  end.

Definition jsxname_is (name : jsxname) (s : string) : bool :=
  match name with
  | JSXIdentifier x => x =? s
  | _ => false
  end.

(** The [attributes.some(...)] test of [shouldRemoveNode] (lines 153-160). *)
Definition hasStyleProp (tr : tracker) (attributes : list node) : bool :=
  existsb (fun attr =>
    match attr with
    | JSXAttribute _ aname (JSXExpressionContainer _ (MemberExpression _ object property)) =>
        jsxname_is aname "style"
        && isIdentifier object
        && match property with
           | Identifier _ p => has tr ("styles." ++ p)
           | _ => false
           end
    | _ => false
    end) attributes.

(** The line heuristic of [shouldRemoveNode] (lines 141-146). *)
Definition onEmployeeCodeLine (m : meta) (lines : option (list nat)) : bool :=
  match loc m, lines with
  | Some startLine, Some employeeCodeLines => has_line employeeCodeLines startLine
  | _, _ => false
  end.

Definition shouldRemoveNode (prev : node) (lines : option (list nat))
           (tr : tracker) (n : node) : tracker * bool :=
  let m := meta_of n in
  if hasEmployeeCodeComment (leadingComments m ++ trailingComments m) then
    match n with
    | ImportDeclaration _ importSource specifiers =>
        let names := importedNames specifiers in
        if isCriticalImport importSource names then (tr, false)
        else (add_unless_critical tr names, true)
    | _ => (tr, true)
    end
  else
    match n with
    | JSXElement _ opening name attributes _ =>
        if hasEmployeeCodeComment (leadingComments opening)
           || hasEmployeeCodeComment (trailingComments opening) then (tr, true)
        else if match elementName name with
                | Some x => has tr x
                | None => false
                end then (tr, true)
        else if onEmployeeCodeLine m lines then (tr, true)
        else if hasStyleProp tr attributes then (tr, true)
        else (tr, false)
    | ImportDeclaration _ importSource specifiers =>
        if negb (isNull prev) && hasDirectComment (meta_of prev) then
          let names := importedNames specifiers in
          if isCriticalImport importSource names then (tr, false)
          else (add_unless_critical tr names, true)
        else (tr, false)
    | VariableDeclarator _ id (Identifier _ initName) =>
        if has tr initName then
          (match truthy (name_of id) with
           | Some x => add tr x
           | None => tr
           end, true)
        else (tr, false)
    | LogicalExpression _ operator leftNode _ =>
        if (operator =? "&&")
           && match truthy (name_of leftNode) with
              | Some leftName => has tr leftName
              | None => false
              end then (tr, true)
        else (tr, false)
    | JSXExpressionContainer _ (LogicalExpression _ operator (Identifier _ leftName) _) =>
        if (operator =? "&&")
           && negb (leftName =? "")
           && (has tr leftName || (leftName =? "IS_EMPLOYEE_MODE")) then (tr, true)
        else (tr, false)
    | _ => (tr, false)
    end.

(** ** The reference rewriter: [replaceWithEmptyIfNeeded] *)

Inductive action :=
| Keep                    (* the visitor leaves the node in place *)
| Remove                  (* path.remove() *)
| Replace (r : node).     (* path.replaceWith(r) *)

(** [t.jsxExpressionContainer(t.nullLiteral())], [t.identifier('undefined')]
    and [t.booleanLiteral(false)], as the plugin builds them: new nodes
    without comments.  [path.replaceWith] gives them the comments of the
    node they replace ([inheritsComments], in the traversal below). *)
Definition nullContainer : node := JSXExpressionContainer no_meta (Literal no_meta NullLiteral).
Definition undefinedIdentifier : node := Identifier no_meta "undefined".
Definition falseLiteral : node := Literal no_meta (BooleanLiteral false).

Definition replaceWithEmptyIfNeeded (c : context) (tr : tracker) (n : node) : action :=
  match n with
  | JSXExpressionContainer _ (LogicalExpression _ operator leftNode _) =>
      if (operator =? "&&") && str_eq_opt (name_of leftNode) "IS_EMPLOYEE_MODE"
      then Replace nullContainer
      else Keep
  | Identifier _ name =>
      if has tr name then
        if includes_str CRITICAL_IMPORTS name then Keep
        else if negb (isImportSpecifierP c) && negb (isImportDefaultSpecifierP c)
             then Replace undefinedIdentifier
             else Keep
      else Keep
  | _ => Keep
  end.

(** ** The visitors

    A visitor receives the context of the visited node, its previous
    sibling, the tracker and the node, and returns the new tracker with
    what it did to the node. *)

Definition visitor := context -> node -> tracker -> node -> tracker * action.

(** [decl.id] and [prop.key]: the field of that name, on whatever kind
    of node stands there. *)
Definition id_of (n : node) : node :=
  match field_at n "id" with Some x => x | None => Null end.

Definition key_of (n : node) : node :=
  match field_at n "key" with Some x => x | None => Null end.

(** The names [decl.id.name] of the declarations with [decl.id && decl.id.name]. *)
Definition declaredNames (declarations : list node) : list string :=
  flat_map (fun decl => match truthy (name_of (id_of decl)) with
                        | Some s => [s]
                        | None => []
                        end) declarations.

Definition add_all (tr : tracker) (names : list string) : tracker :=
  fold_left add names tr.

(** The loop over [styleObj.properties] of the seeding traversal. *)
Definition trackStyles (tr : tracker) (properties : list node) : tracker :=
  fold_left (fun t prop =>
               if hasDirectComment (meta_of prop) then
                 match truthy (name_of (key_of prop)) with
                 | Some k => add t ("styles." ++ k)
                 | None => t
                 end
               else t) properties tr.

(** The traversal started by [Program.enter] (lines 279-321). *)
Definition seedingVisitor : visitor := fun c prev tr n =>
  match n with
  | VariableDeclaration m declarations =>
      if hasDirectComment m then
        (add_unless_critical tr (declaredNames declarations), Remove)
      else (tr, Keep)
  | CallExpression _ (MemberExpression _ object property) arguments =>
      if str_eq_opt (name_of object) "StyleSheet"
         && str_eq_opt (name_of property) "create" then
        match arguments with
        | ObjectExpression _ properties :: _ => (trackStyles tr properties, Keep)
        | _ => (tr, Keep)
        end
      else (tr, Keep)
  | _ => (tr, Keep)
  end.

(** ['styles.' + expr.property.name], where an absent name prints as
    [undefined]. *)
Definition styleKey (property : node) : string :=
  "styles." ++ match name_of property with
               | Some p => p
               | None => "undefined"
               end.

(** The [for (const attr of element.attributes)] loop of the JSXElement
    visitor (lines 387-401). *)
Definition usesRemovedStyle (tr : tracker) (attributes : list node) : bool :=
  existsb (fun attr =>
    match attr with
    | JSXAttribute _ aname (JSXExpressionContainer _ (MemberExpression _ object property)) =>
        jsxname_is aname "style"
        && str_eq_opt (name_of object) "styles"
        && has tr (styleKey property)
    | _ => false
    end) attributes.

Definition isStyleTableEntry (c : context) : bool :=
  match a_type (parent c), a_type (grandparent c) with
  | TObjectExpression, TCallExpression => a_styleSheetCallee (grandparent c)
  | _, _ => false
  end.

(** The visitors of the main traversal (lines 332-517), by node type. *)
Definition mainVisitor (lines : list nat) : visitor := fun c prev tr n =>
  match n with
  | ImportDeclaration m importSource specifiers =>
      if (importSource =? "react/jsx-runtime")
         || (importSource =? "react/jsx-dev-runtime") then (tr, Keep)
      else
        let hasPrevComment := negb (isNull prev) && hasDirectComment (meta_of prev) in
        if hasDirectComment m || hasPrevComment then
          let names := importedNames specifiers in
          if isCriticalImport importSource names then (tr, Keep)
          else (add_unless_critical tr names, Remove)
        else (tr, Keep)
  | JSXElement _ _ _ attributes _ =>
      let (tr1, b) := shouldRemoveNode prev (Some lines) tr n in
      if b then (tr1, Remove)
      else if usesRemovedStyle tr1 attributes then (tr1, Remove)
      else (tr1, Keep)
  | JSXExpressionContainer m _ =>
      let (tr1, b) := shouldRemoveNode prev None tr n in
      if b then (tr1, Remove)
      else if hasDirectComment m then (tr1, replaceWithEmptyIfNeeded c tr1 n)
      else (tr1, Keep)
  | LogicalExpression m operator leftNode _ =>
      if hasDirectComment m
         && (operator =? "&&")
         && str_eq_opt (name_of leftNode) "IS_EMPLOYEE_MODE"
      then (tr, Replace falseLiteral)
      else (tr, Keep)
  | FunctionDeclaration m _ _ _ =>
      if hasDirectComment m then (tr, Remove) else (tr, Keep)
  | VariableDeclaration m declarations =>
      if hasDirectComment m then (add_all tr (declaredNames declarations), Remove)
      else (tr, Keep)
  | ExpressionStatement m _ =>
      if hasDirectComment m then (tr, Remove) else (tr, Keep)
  | ObjectProperty m key _ =>
      if hasDirectComment m then
        (if isStyleTableEntry c then
           match truthy (name_of key) with
           | Some k => add tr ("styles." ++ k)
           | None => tr
           end
         else tr, Remove)
      else (tr, Keep)
  | ClassProperty m _ _ =>
      if hasDirectComment m then (tr, Remove) else (tr, Keep)
  | Identifier _ name =>
      if includes_str CRITICAL_IMPORTS name then (tr, Keep)
      else if has tr name
              && negb (isImportSpecifierP c)
              && negb (isImportDefaultSpecifierP c)
           then (tr, replaceWithEmptyIfNeeded c tr n)
           else (tr, Keep)
  | _ => (tr, Keep)
  end.


(** ** Babel's paths: comments, removal and replacement

    What [path.remove()] and [path.replaceWith()] do besides taking a
    node out or putting one in. *)

Definition comment_eqb (a b : comment) : bool :=
  (value a =? value b)
  && match cloc a, cloc b with
     | Some x, Some y => Nat.eqb x y
     | None, None => true
     | _, _ => false
     end.

(** [Array.from(new Set(l))] *)
Fixpoint uniq (l : list comment) : list comment :=
  match l with
  | [] => []
  | c :: cs => c :: filter (fun d => negb (comment_eqb d c)) (uniq cs)
  end.

(** [t.inheritsComments(child, parent)] and [t.removeComments(node)]. *)
Definition inheritsComments (child parent : node) : node :=
  set_meta child
    (mkMeta (uniq (leadingComments (meta_of child) ++ leadingComments (meta_of parent))%list)
            (uniq (trailingComments (meta_of child) ++ trailingComments (meta_of parent))%list)
            (loc (meta_of child))).

Definition removeComments (n : node) : node :=
  set_meta n (mkMeta [] [] (loc (meta_of n))).

(** [path.addComments("leading", cs)] and [path.addComments("trailing", cs)]. *)
Definition addLeading (n : node) (cs : list comment) : node :=
  match cs with
  | [] => n
  | _ => set_meta n (mkMeta (cs ++ leadingComments (meta_of n))%list
                            (trailingComments (meta_of n)) (loc (meta_of n)))
  end.

Definition addTrailing (n : node) (cs : list comment) : node :=
  match cs with
  | [] => n
  | _ => set_meta n (mkMeta (leadingComments (meta_of n))
                            (trailingComments (meta_of n) ++ cs)%list (loc (meta_of n)))
  end.

Definition removeIfExisting (l toRemove : list comment) : list comment :=
  filter (fun c => negb (existsb (comment_eqb c) toRemove)) l.

(** [shareCommentsWithSiblings] for the node [g] that leaves a list,
    between [prev] and [next] ([Null] when there is none): what [prev]
    becomes, and the comments that [next] receives in front of its
    own. *)
Definition shareCommentsWithSiblings (prev g next : node) : node * list comment :=
  let leading := leadingComments (meta_of g) in
  let trailing := trailingComments (meta_of g) in
  let hasPrev := negb (isNull prev) in
  let hasNext := negb (isNull next) in
  (if hasPrev
   then addTrailing prev
          (removeIfExisting leading (trailingComments (meta_of prev))
           ++ (if hasNext then [] else trailing))%list
   else prev,
   if hasNext
   then ((if hasPrev then [] else leading)
         ++ removeIfExisting trailing (leadingComments (meta_of next)))%list
   else []).

(** The aliases that the removal hooks test. *)
Definition isWhile (type : string) : bool :=
  includes_str ["DoWhileStatement"; "WhileStatement"] type.
Definition isLoop (type : string) : bool :=
  includes_str ["DoWhileStatement"; "ForInStatement"; "ForStatement";
                "WhileStatement"; "ForOfStatement"] type.
Definition isExportDeclaration (type : string) : bool :=
  includes_str ["ExportAllDeclaration"; "ExportDefaultDeclaration";
                "ExportNamedDeclaration"] type.
Definition isBinary (type : string) : bool :=
  includes_str ["BinaryExpression"; "LogicalExpression"] type.

(** The removal hooks, in the order in which [path.remove()] asks
    them.  [key] is the key of the removed node, or that of the list it
    stands in ([inList]). *)
Inductive hook :=
| RemoveParent                               (* parent.remove() *)
| ReplaceParent (key : string) (p : option node)
                                             (* parent.replaceWith(parent.node[key]) *)
| ReplaceWithBlock                           (* self.replaceWith({}) *)
| NoHook.

Definition removalHook (parent : node) (key : string) (inList : bool) : hook :=
  let type := type_of parent in
  let keyIs := fun s => negb inList && (key =? s) in
  if (keyIs "test" && (isWhile type || (type =? "SwitchCase")))
     || (keyIs "declaration" && isExportDeclaration type)
     || (keyIs "body" && (type =? "LabeledStatement"))
     || (inList && (key =? "declarations") && (type =? "VariableDeclaration")
         && Nat.eqb (length (items_at parent "declarations")) 1)
     || (keyIs "expression" && (type =? "ExpressionStatement"))
  then RemoveParent
  else if (type =? "SequenceExpression")
          && Nat.eqb (length (items_at parent "expressions")) 1
  then ReplaceParent "expressions" (hd_error (items_at parent "expressions"))
  else if isBinary type
  then if keyIs "left"
       then ReplaceParent "right" (field_at parent "right")
       else ReplaceParent "left" (field_at parent "left")
  else if ((type =? "IfStatement") && keyIs "consequent")
          || (keyIs "body" && (isLoop type || (type =? "ArrowFunctionExpression")))
  then ReplaceWithBlock
  else NoHook.

(** The single fields that Babel's node definitions declare optional,
    among those that can hold a node the plugin removes: [null] may be
    put there.  Elsewhere [_replaceWith(null)] fails the validation of
    the field. *)
Definition optionalField (parent : node) (key : string) : bool :=
  existsb (fun tk => (fst tk =? type_of parent) && (snd tk =? key))
    [ ("JSXAttribute", "value"); ("VariableDeclarator", "init");
      ("FunctionDeclaration", "id"); ("FunctionExpression", "id");
      ("ClassProperty", "value"); ("ReturnStatement", "argument");
      ("YieldExpression", "argument"); ("IfStatement", "alternate");
      ("ForStatement", "init"); ("ForStatement", "test");
      ("ForStatement", "update"); ("ClassDeclaration", "id");
      ("ClassDeclaration", "superClass"); ("ClassExpression", "id");
      ("ClassExpression", "superClass");
      ("ExportNamedDeclaration", "declaration");
      ("ExportNamedDeclaration", "source"); ("SwitchCase", "test") ].

(** [{ type: "BlockStatement", body: [] }] *)
Definition emptyBlock : node := OtherNode no_meta "BlockStatement" [Multiple "body" []].

(** ** The traversal

    Depth first, a node before its children.  The visit of a path
    gives the tracker, what the path holds afterwards, and what has
    become of the node that was visited: the two differ when the node
    was replaced or removed. *)

Inductive outcome :=
| Stays (n : node)       (* the path holds [n] *)
| Gone (n : node)        (* the path was removed; [n] is the node that left *)
| Throws.                (* the traversal threw *)

Record result := mkResult {
  r_tracker : tracker;
  r_outcome : outcome;
  r_object : node
}.

(** What has become of a node while its fields are visited: a removal
    hook of one of its children may have removed it, or put one of its
    fields in its place. *)
Inductive status :=
| Alive
| Removed
| Becomes (key : string) (p : node)
| Thrown.

(** [self.parentPath.node], as the removal hooks read it. *)
Definition hookParent (st : status) (cur : node) : node :=
  match st with
  | Alive => cur
  | Becomes _ p => p
  | Removed | Thrown => Null
  end.

(** The context of the field [key] of [n], itself in context [c]:
    the attributes of an element have its opening element as parent. *)
Definition attr_ctx : context := mkCtx no_anc no_anc.

Definition part_ctx (c : context) (n : node) (key : string) : context :=
  match n with
  | CallExpression _ _ _ => if key =? "callee" then callee_ctx c else child_ctx c n
  | JSXElement _ _ _ _ _ => if key =? "attributes" then attr_ctx else child_ctx c n
  | _ => child_ctx c n
  end.

Definition set_head (x : node) (l : list node) : list node :=
  match l with
  | [] => []
  | _ :: xs => x :: xs
  end.

Definition set_single (key : string) (x : node) (ps : list (part node))
  : list (part node) :=
  map (fun p => match p with
                | Single k y => if k =? key then Single k x else p
                | Multiple _ _ => p
                end) ps.

Section Paths.
(** The visit of a path one level down. *)
Variable rec : context -> node -> tracker -> node -> result.

(** The elements of a list, in turn ([visitMultiple]).  [done] holds
    the elements behind the current one, the nearest first; [extra] the
    comments that the removed neighbour has handed to the current one;
    [mk l] is the parent with the list [l]. *)
Fixpoint visitMultiple (mk : list node -> node) (listKey : string) (c : context)
         (tr : tracker) (st : status) (done : list node) (extra : list comment)
         (rest : list node) {struct rest} : tracker * status * list node :=
  match rest with
  | [] => (tr, st, rev done)
  | x :: xs =>
    if isNull x then visitMultiple mk listKey c tr st (x :: done) [] xs
    else
      let x0 := addLeading x extra in
      let prev := hd Null done in
      let res := rec c prev tr x0 in
      let tr1 := r_tracker res in
      match r_outcome res with
      | Throws => (tr1, Thrown, rev done ++ r_object res :: xs)%list
      | Stays s => visitMultiple mk listKey c tr1 st (s :: done) [] xs
      | Gone g =>
        let cur := mk (rev done ++ r_object res :: xs)%list in
        match st, removalHook (hookParent st cur) listKey true with
        | _, NoHook =>
            let (prev', extra') := shareCommentsWithSiblings prev g (hd Null xs) in
            visitMultiple mk listKey c tr1 st (set_head prev' done) extra' xs
        | Alive, RemoveParent =>
            visitMultiple mk listKey c tr1 Removed (r_object res :: done) [] xs
        | Alive, ReplaceParent k (Some p) =>
            if isNull p then (tr1, Thrown, rev done ++ r_object res :: xs)%list
            else visitMultiple mk listKey c tr1 (Becomes k (inheritsComments p cur))
                               (r_object res :: done) [] xs
        | _, _ => (tr1, Thrown, rev done ++ r_object res :: xs)%list
        end
      end
  end.

(** The fields of the node [n], in turn ([traverseNode]).  [done]
    holds the fields already visited, the last first. *)
Fixpoint visitKeys (n : node) (c : context) (tr : tracker) (st : status)
         (done : list (part node)) (rest : list (part node)) {struct rest}
  : tracker * status * list (part node) :=
  match rest with
  | [] => (tr, st, rev done)
  | Single key x :: ps =>
      let x0 := match st with
                | Becomes k p => if k =? key then p else x
                | _ => x
                end in
      if isNull x0 then visitKeys n c tr st (Single key x0 :: done) ps
      else
        let cur := rebuild n (rev done ++ Single key x0 :: ps)%list in
        let res := rec (part_ctx c cur key) Null tr x0 in
        let tr1 := r_tracker res in
        let st1 := match st with
                   | Becomes k p => if k =? key then Becomes k (r_object res) else st
                   | _ => st
                   end in
        let here := Single key (r_object res) in
        match r_outcome res with
        | Throws => (tr1, Thrown, rev done ++ here :: ps)%list
        | Stays s => visitKeys n c tr1 st1 (Single key s :: done) ps
        | Gone g =>
          match st1, removalHook (hookParent st1 cur) key false with
          | _, NoHook =>
              if optionalField cur key
              then visitKeys n c tr1 st1 (Single key Null :: done) ps
              else (tr1, Thrown, rev done ++ here :: ps)%list
          | _, ReplaceWithBlock =>
              let res2 := rec (part_ctx c cur key) Null tr1
                              (inheritsComments emptyBlock g) in
              match r_outcome res2 with
              | Stays s => visitKeys n c (r_tracker res2) st1 (Single key s :: done) ps
              | _ => (r_tracker res2, Thrown, rev done ++ here :: ps)%list
              end
          | Alive, RemoveParent => visitKeys n c tr1 Removed (here :: done) ps
          | Alive, ReplaceParent k (Some p) =>
              if isNull p then (tr1, Thrown, rev done ++ here :: ps)%list
              else
                let p0 := inheritsComments p cur in
                visitKeys n c tr1 (Becomes k p0) (here :: set_single k p0 done) ps
          | _, _ => (tr1, Thrown, rev done ++ here :: ps)%list
          end
        end
  | Multiple key items :: ps =>
      let mk := fun l => rebuild n (rev done ++ Multiple key l :: ps)%list in
      let '(tr1, st1, items') :=
        visitMultiple mk key (part_ctx c (mk items) key) tr st [] [] items in
      match st1 with
      | Thrown => (tr1, Thrown, rev done ++ Multiple key items' :: ps)%list
      | _ => visitKeys n c tr1 st1 (Multiple key items' :: done) ps
      end
  end.

(** The children of a node that its visitor has kept, and what the
    hooks of their removals have made of the node. *)
Definition traverseNode (c : context) (prev : node) (tr : tracker) (n : node) : result :=
  let '(tr1, st, ps) := visitKeys n c tr Alive [] (keys_of n) in
  let cur := rebuild n ps in
  match st with
  | Alive => mkResult tr1 (Stays cur) cur
  | Removed => mkResult tr1 (Gone cur) cur
  | Becomes _ p =>
      let res := rec c prev tr1 p in
      mkResult (r_tracker res) (r_outcome res) (removeComments cur)
  | Thrown => mkResult tr1 Throws cur
  end.
End Paths.

Section Traversal.
Variable visit : visitor.

(** [path.visit()], with [fuel] nested visits left. *)
Fixpoint traverse (fuel : nat) (c : context) (prev : node) (tr : tracker) (n : node)
  : result :=
  match fuel with
  | 0 => mkResult tr Throws n
  | S k =>
    if isNull n then mkResult tr (Stays Null) Null
    else
      match visit c prev tr n with
      | (tr0, Remove) => mkResult tr0 (Gone n) n
      | (tr0, Replace r) =>
          if isNull r then mkResult tr0 Throws n
          else
            let res := traverse k c prev tr0 (inheritsComments r n) in
            mkResult (r_tracker res) (r_outcome res) (removeComments n)
      | (tr0, Keep) => traverseNode (traverse k) c prev tr0 n
      end
  end.
End Traversal.

(** The number of nodes of a tree. *)
Fixpoint size (n : node) : nat :=
  S match n with
    | Null | Identifier _ _ | Literal _ _ => 0
    | MemberExpression _ a b | ObjectProperty _ a b
    | LogicalExpression _ _ a b | ImportSpecifier _ a b
    | VariableDeclarator _ a b | ClassProperty _ a b => size a + size b
    | CallExpression _ f args => size f + list_sum (map size args)
    | ObjectExpression _ l | ImportDeclaration _ _ l
    | VariableDeclaration _ l => list_sum (map size l)
    | JSXElement _ _ _ attrs kids =>
        list_sum (map size attrs) + list_sum (map size kids)
    | JSXAttribute _ _ a | JSXExpressionContainer _ a
    | ImportDefaultSpecifier _ a | ImportNamespaceSpecifier _ a
    | ExpressionStatement _ a => size a
    | FunctionDeclaration _ i ps b => size i + list_sum (map size ps) + size b
    | OtherNode _ _ fs =>
        list_sum (map (fun p => match p with
                                | Single _ x => size x
                                | Multiple _ l => list_sum (map size l)
                                end) fs)
    end.

(** The nested visits that the traversal of [stmts] may use. *)
Definition budget (stmts : list node) : nat := 2 * list_sum (map size stmts) + 2.

(** The program node. *)
Definition program (stmts : list node) : node :=
  OtherNode no_meta "Program" [Multiple "body" stmts].

(** The statements of the program; [None] when the traversal throws. *)
Definition traverse_body (visit : visitor) (tr : tracker) (stmts : list node)
  : tracker * option (list node) :=
  let '(tr1, st, stmts') :=
    visitMultiple (traverse visit (budget stmts)) program "body" top_ctx
                  tr Alive [] [] stmts in
  (tr1, match st with
        | Alive => Some stmts'
        | _ => None
        end).

(** ** One file, and a build *)

(** [Program.exit]: the names logged, in insertion order, when there are any. *)
Definition report (tr : tracker) : option (list string) :=
  match tr with
  | [] => None
  | _ => Some tr
  end.

(** The plugin on one file: [Program.enter] runs the seeding traversal,
    then the main traversal visits the program.  [tr] is the content of
    [removedImports] when the file is entered.  The file is [None] when
    the pass throws. *)
Definition prune (tr : tracker) (f : file) : tracker * option file :=
  let employeeCodeLines := findEmployeeCodeCommentLines (comments f) in
  match traverse_body seedingVisitor tr (body f) with
  | (tr1, None) => (tr1, None)
  | (tr1, Some body1) =>
      match traverse_body (mainVisitor employeeCodeLines) tr1 body1 with
      | (tr2, None) => (tr2, None)
      | (tr2, Some body2) => (tr2, Some (mkFile (comments f) body2))
      end
  end.

(** [module.exports = function(babel) { const removedImports = new Set(); ... }]:
    a plugin instance starts with an empty tracker, and nothing in the
    plugin empties it afterwards. *)
Definition newPlugin : tracker := [].

(** [transform] of [babel-transformer.js]: the plugin is added only when
    employee code is not included. *)
Definition transform (includeEmployeeCode : bool) (tr : tracker) (f : file)
  : tracker * option file :=
  if includeEmployeeCode then (tr, Some f) else prune tr f.

(** The files of a build, handed one after the other to one plugin
    instance. *)
Fixpoint build (includeEmployeeCode : bool) (tr : tracker) (files : list file)
  : tracker * list (option file) :=
  match files with
  | [] => (tr, [])
  | f :: rest =>
      let (tr1, f') := transform includeEmployeeCode tr f in
      let (tr2, rest') := build includeEmployeeCode tr1 rest in
      (tr2, f' :: rest')
  end.

(** ** The transformer, the Babel configuration and the run script

    [scripts/babel-transformer.js], [babel.config.js] and
    [scripts/run-with-no-cache.js]: what decides whether the plugin
    runs on a file. *)

(** [String.prototype.endsWith]. *)
Fixpoint endsWith (s suffix : string) : bool :=
  (s =? suffix)
  || match s with
     | EmptyString => false
     | String _ rest => endsWith rest suffix
     end.

(** [/\.(tsx|ts|jsx|js)$/.test(filename)] *)
Definition isScriptFile (filename : string) : bool :=
  existsb (fun ext => endsWith filename ("." ++ ext)) ["tsx"; "ts"; "jsx"; "js"].

(** [process.env.INCLUDE_EMPLOYEE_CODE === 'true']; an unset variable
    is [None]. *)
Definition includeEmployeeCode (env : option string) : bool :=
  match env with
  | Some v => v =? "true"
  | None => false
  end.

(** The [options.plugins] that [transform(props)] hands to the
    underlying transformer (lines 28-55): [props.options.plugins] with
    the plugin added at the end, or as they were. *)
Definition customPlugins {A} (treeShakePlugin : A) (env : option string)
           (filename : string) (plugins : option (list A)) : option (list A) :=
  if isScriptFile filename then
    if negb (includeEmployeeCode env) then
      Some ((match plugins with Some l => l | None => [] end) ++ [treeShakePlugin])%list
    else plugins
  else plugins.

(** The [plugins] of [babel.config.js]. *)
Definition configPlugins (env : option string) : list string :=
  if negb (includeEmployeeCode env)
  then ["./scripts/babel-plugins/babel-plugin-tree-shake-employee-code"]
  else [].

(** [run-with-no-cache.js]: the arguments it reads and the command it
    runs. *)
Definition isEmployee (args : list string) : bool := includes_str args "--employee".

Definition platform (args : list string) : string :=
  match find (fun arg => includes_str ["--ios"; "--android"; "--web"] arg) args with
  | Some arg => arg
  | None => ""
  end.

Definition envValue (args : list string) : string :=
  if isEmployee args then "true" else "false".

Definition command (args : list string) : string :=
  "cross-env INCLUDE_EMPLOYEE_CODE=" ++ envValue args
  ++ " expo start --clear " ++ platform args.


(** ** Predicates on trees and trackers

    The properties proved below are stated with them. *)

(** All the nodes of a tree, the root first. *)
Fixpoint subnodes (n : node) : list node :=
  n :: match n with
       | Null | Identifier _ _ | Literal _ _ => []
       | MemberExpression _ a b | ObjectProperty _ a b
       | LogicalExpression _ _ a b | ImportSpecifier _ a b
       | VariableDeclarator _ a b | ClassProperty _ a b =>
           subnodes a ++ subnodes b
       | CallExpression _ f args => subnodes f ++ flat_map subnodes args
       | ObjectExpression _ l | ImportDeclaration _ _ l
       | VariableDeclaration _ l => flat_map subnodes l
       | JSXElement _ _ _ attrs kids =>
           flat_map subnodes attrs ++ flat_map subnodes kids
       | JSXAttribute _ _ a | JSXExpressionContainer _ a
       | ImportDefaultSpecifier _ a | ImportNamespaceSpecifier _ a
       | ExpressionStatement _ a => subnodes a
       | FunctionDeclaration _ i ps b =>
           subnodes i ++ flat_map subnodes ps ++ subnodes b
       | OtherNode _ _ fs =>
           flat_map (fun p => match p with
                              | Single _ x => subnodes x
                              | Multiple _ l => flat_map subnodes l
                              end) fs
       end.

Definition nodes_of (l : list node) : list node := flat_map subnodes l.

(** [any_node q c n]: some node of the tree [n], itself in context [c],
    satisfies [q] in its context.  Contexts are computed as the
    traversal computes them. *)
Fixpoint any_node (q : context -> node -> bool) (c : context) (n : node) : bool :=
  q c n ||
  let cc := child_ctx c n in
  match n with
  | Null | Identifier _ _ | Literal _ _ => false
  | MemberExpression _ a b | ObjectProperty _ a b
  | LogicalExpression _ _ a b | ImportSpecifier _ a b
  | VariableDeclarator _ a b | ClassProperty _ a b =>
      any_node q cc a || any_node q cc b
  | CallExpression _ f args =>
      any_node q (callee_ctx c) f || existsb (any_node q cc) args
  | ObjectExpression _ l | ImportDeclaration _ _ l
  | VariableDeclaration _ l => existsb (any_node q cc) l
  | JSXElement _ _ _ attrs kids =>
      existsb (any_node q attr_ctx) attrs || existsb (any_node q cc) kids
  | JSXAttribute _ _ a | JSXExpressionContainer _ a
  | ImportDefaultSpecifier _ a | ImportNamespaceSpecifier _ a
  | ExpressionStatement _ a => any_node q cc a
  | FunctionDeclaration _ i ps b =>
      any_node q cc i || existsb (any_node q cc) ps || any_node q cc b
  | OtherNode _ _ fs =>
      existsb (fun p => match p with
                        | Single _ x => any_node q cc x
                        | Multiple _ l => existsb (any_node q cc) l
                        end) fs
  end.

Definition any_stmt (q : context -> node -> bool) (stmts : list node) : bool :=
  existsb (any_node q top_ctx) stmts.

Definition grows (tr0 tr : tracker) : Prop := forall s, In s tr0 -> In s tr.

Definition critical_free (tr : tracker) : Prop :=
  forall s, In s tr -> includes_str CRITICAL_IMPORTS s = false.



(** A node that binds to the name [N]: an identifier [N] outside the
    binding of an import (named, default or namespace), or an element
    whose tag is [N]. *)
Definition refersTo (N : string) : context -> node -> bool := fun c n =>
  match n with
  | Identifier _ x =>
      (x =? N) && negb (isImportSpecifierP c) && negb (isImportDefaultSpecifierP c)
      && negb (isImportNamespaceSpecifierP c)
  | JSXElement _ _ name _ _ => str_eq_opt (elementName name) N
  | _ => false
  end.

(** An element whose tag is a member of [N], as in [<N.Panel/>]. *)
Definition memberOf (N : string) : context -> node -> bool := fun _ n =>
  match n with
  | JSXElement _ _ (JSXMemberExpression object _) _ _ => object =? N
  | _ => false
  end.


(** The test [IS_EMPLOYEE_MODE && ...] that [shouldRemoveNode] makes on
    the expression of a container (lines 226-230), with nothing tracked. *)
Definition guardedByMode (expression : node) : bool :=
  match expression with
  | LogicalExpression _ operator (Identifier _ leftName) _ =>
      (operator =? "&&") && (leftName =? "IS_EMPLOYEE_MODE")
  | _ => false
  end.

(** A node that carries the annotation, on itself or on its opening
    tag, or a container guarded by [IS_EMPLOYEE_MODE]. *)
Definition annotatedOrGuarded : context -> node -> bool := fun _ n =>
  hasDirectComment (meta_of n)
  || match n with
     | JSXElement _ opening _ _ _ => hasDirectComment opening
     | JSXExpressionContainer _ expression => guardedByMode expression
     | _ => false
     end.


(** What the visitors of the main traversal look up in the tracker at
    a node: the name of an identifier, the tag of an element and the
    style entries its attributes refer to. *)
Definition mentions (tr : tracker) (n : node) : bool :=
  match n with
  | Identifier _ x => has tr x
  | JSXElement _ _ name attributes _ =>
      match elementName name with Some x => has tr x | None => false end
      || hasStyleProp tr attributes || usesRemovedStyle tr attributes
  | _ => false
  end.

(** A tree in which no node is annotated or guarded, and one in which
    no node mentions a tracked name either. *)
Definition plain (n : node) : Prop :=
  forall y, In y (subnodes n) -> annotatedOrGuarded top_ctx y = false.

Definition quiet (tr : tracker) (n : node) : Prop :=
  plain n /\ forall y, In y (subnodes n) -> mentions tr y = false.
(** ** Trees, by their fields *)

(** The nodes that a field holds. *)
Definition part_nodes (p : part node) : list node :=
  match p with
  | Single _ x => [x]
  | Multiple _ l => l
  end.

Definition part_any (f : string -> node -> bool) (p : part node) : bool :=
  match p with
  | Single k x => f k x
  | Multiple k l => existsb (f k) l
  end.

Definition part_size (p : part node) : nat :=
  match p with
  | Single _ x => size x
  | Multiple _ l => list_sum (map size l)
  end.

(** Two lists of fields with the same keys, single or not, in the same
    order. *)
Definition same_kind (p p' : part node) : Prop :=
  match p, p' with
  | Single k _, Single k' _ => k = k'
  | Multiple k _, Multiple k' _ => k = k'
  | _, _ => False
  end.

Definition same_shape (ps ps' : list (part node)) : Prop := Forall2 same_kind ps ps'.

(** ** Sample files

    Comments are attached the way the parser attaches them: a comment
    in front of the first node of a list leads that node, a comment
    after the last node trails it, and a comment between two statements
    is attached to both, trailing the first and leading the second. *)

Definition marker (line : nat) : comment := mkComment " @employee-code " (Some line).

Definition at_line (l : nat) : meta := mkMeta [] [] (Some l).

(** A node on line [l] with the annotation comment of line [k] leading it. *)
Definition marked (k l : nat) : meta := mkMeta [marker k] [] (Some l).

(** A node on line [l] with the annotation comment of line [k] trailing it. *)
Definition trailed (k l : nat) : meta := mkMeta [] [marker k] (Some l).

Definition ident (l : nat) (s : string) : node := Identifier (at_line l) s.

Definition number (l n : nat) : node := Literal (at_line l) (NumericLiteral n).

Definition const (m : meta) (l : nat) (x : string) (init : node) : node :=
  VariableDeclaration m [VariableDeclarator (at_line l) (ident l x) init].

Definition element (l : nat) (tag : string) (attrs kids : list node) : node :=
  JSXElement (at_line l) (at_line l) (JSXIdentifier tag) attrs kids.

Definition block (l : nat) (stmts : list node) : node :=
  OtherNode (at_line l) "BlockStatement" [Multiple "body" stmts].

Definition exportDefault (m : meta) (declaration : node) : node :=
  OtherNode m "ExportDefaultDeclaration" [Single "declaration" declaration].

Definition returns (l : nat) (argument : node) : node :=
  OtherNode (at_line l) "ReturnStatement" [Single "argument" argument].

(** [
    1  // @employee-code
    2  const Y = 1;
    3  const X = Y;
    ] *)
Definition aliasFile : file :=
  mkFile [marker 1]
    [ const (marked 1 2) 2 "Y" (number 2 1);
      const (at_line 3) 3 "X" (ident 3 "Y") ].

(** The alias behind a statement that no visitor removes: [
    1  // @employee-code
    2  const Y = 1;
    3  export default function f() {
    4    const X = Y;
    5  }
    ] *)
Definition aliasInFunction (init : node) : node :=
  FunctionDeclaration (at_line 3) (ident 3 "f") []
    (block 3 [ const (at_line 4) 4 "X" init ]).

Definition aliasBehindExportFile : file :=
  mkFile [marker 1]
    [ const (marked 1 2) 2 "Y" (number 2 1);
      exportDefault (at_line 3) (aliasInFunction (ident 4 "Y")) ].

(** [
    1  /* @employee-code */ function secret() {}
    2  const View = 1;
    ] *)
Definition functionThenViewFile : file :=
  mkFile [marker 1]
    [ FunctionDeclaration (marked 1 1) (ident 1 "secret") [] (block 1 []);
      const (at_line 2) 2 "View" (number 2 1) ].

(** The guarded render, with the comments [cs] of the file, the
    container carrying [mc] and the logical expression [ml]: [
    1  <View>
    2    {IS_EMPLOYEE_MODE && <Secret/>}
    3  </View>
    ] *)
Definition guardedRenderFile (cs : list comment) (mc ml : meta) : file :=
  mkFile cs
    [ ExpressionStatement (at_line 1)
        (element 1 "View" []
           [ JSXExpressionContainer mc
               (LogicalExpression ml "&&" (ident 2 "IS_EMPLOYEE_MODE")
                  (element 2 "Secret" [] [])) ]) ].

(** What is left of it when the container is deleted. *)
Definition emptyViewFile (cs : list comment) : file :=
  mkFile cs [ExpressionStatement (at_line 1) (element 1 "View" [] [])].



(** [
    1  // @employee-code
    2  const Secret = 1;
    ] *)
Definition secretFile : file :=
  mkFile [marker 1] [ const (marked 1 2) 2 "Secret" (number 2 1) ].

(** A file that has a public component of the same name: [
    1  import Secret from './Secret';
    2  <Secret/>
    ] *)
Definition publicFile : file :=
  mkFile []
    [ ImportDeclaration (at_line 1) "./Secret"
        [ImportDefaultSpecifier (at_line 1) (ident 1 "Secret")];
      ExpressionStatement (at_line 2) (element 2 "Secret" [] []) ].

(** An import placed after a use of the imported name, annotated on its
    own line: [
    1  show(Secret);
    2  import Secret from './Secret'; // @employee-code
    ] *)
Definition showSecret (m : meta) : node :=
  ExpressionStatement m
    (CallExpression (at_line 1) (ident 1 "show") [ident 1 "Secret"]).

Definition useBeforeImportFile : file :=
  mkFile [marker 2]
    [ showSecret (at_line 1);
      ImportDeclaration (trailed 2 2) "./Secret"
        [ImportDefaultSpecifier (at_line 2) (ident 2 "Secret")] ].

(** An element whose tag is a member of an imported name: [
    1  // @employee-code
    2  import N from './N';
    3  export default function App() {
    4    return <N.Panel/>;
    5  }
    ] *)
Definition panelApp : node :=
  FunctionDeclaration (at_line 3) (ident 3 "App") []
    (block 3 [ returns 4 (JSXElement (at_line 4) (at_line 4)
                            (JSXMemberExpression "N" "Panel") [] []) ]).

Definition memberTagFile : file :=
  mkFile [marker 1]
    [ ImportDeclaration (marked 1 2) "./N"
        [ImportDefaultSpecifier (at_line 2) (ident 2 "N")];
      exportDefault (at_line 3) panelApp ].

(** A protected namespace import that carries the annotation, and an
    annotated local constant of the same name inside a function: [
    1  // @employee-code
    2  import * as RN from 'react-native';
    3  function f() {
    4    // @employee-code
    5    const RN = 1;
    6  }
    ] *)
Definition namespaceImport (local : node) : node :=
  ImportDeclaration (marked 1 2) "react-native"
    [ImportNamespaceSpecifier (at_line 2) local].

Definition namespaceFile : file :=
  mkFile [marker 1; marker 4]
    [ namespaceImport (ident 2 "RN");
      FunctionDeclaration (at_line 3) (ident 3 "f") []
        (block 3 [ const (marked 4 5) 5 "RN" (number 5 1) ]) ].

(** A style table inside a declaration that is itself annotated: [
    1  // @employee-code
    2  const styles = StyleSheet.create({
    3    // @employee-code
    4    debugPanel: {},
    5  });
    7  <View style={styles.debugPanel}/>
    ] *)
Definition styleCall (l : nat) (props : list node) : node :=
  CallExpression (at_line l)
    (MemberExpression (at_line l) (ident l "StyleSheet") (ident l "create"))
    [ObjectExpression (at_line l) props].

Definition styleAttr (l : nat) (k : string) : node :=
  JSXAttribute (at_line l) (JSXIdentifier "style")
    (JSXExpressionContainer (at_line l)
       (MemberExpression (at_line l) (ident l "styles") (ident l k))).

Definition entry (m : meta) (l : nat) (key : node) : node :=
  ObjectProperty m key (ObjectExpression (at_line l) []).






(** The same table with the entry's key written as a string, and the
    element alone: [
    4    'debugPanel': {},
    7  <View style={styles.debugPanel}/>
    ] *)
Definition debugPanelView : node :=
  ExpressionStatement (at_line 7) (element 7 "View" [styleAttr 7 "debugPanel"] []).




(** The table of the scenario with the annotated entry written as a
    method: [
    4    debugPanel() {},
    ] *)
Definition methodEntry : node :=
  OtherNode (marked 3 4) "ObjectMethod"
    [Single "key" (ident 4 "debugPanel"); Multiple "params" [];
     Single "body" (block 4 [])].

Definition methodTableFile : file :=
  mkFile [marker 3]
    [ const (at_line 1) 1 "styles"
        (styleCall 1 [ entry (at_line 2) 2 (ident 2 "container"); methodEntry ]);
      debugPanelView ].

(** [reactFile]: an annotated import of the core module. [
    1  // @employee-code
    2  import React from 'react';
    3  <View/>
    ] *)
Definition reactImport : node :=
  ImportDeclaration (marked 1 2) "react"
    [ImportDefaultSpecifier (at_line 2) (ident 2 "React")].

Definition reactFile : file :=
  mkFile [marker 1]
    [ reactImport; ExpressionStatement (at_line 3) (element 3 "View" [] []) ].

(** * Properties *)

#[local] Arguments includes_str : simpl never.
#[local] Arguments has : simpl never.
#[local] Arguments add : simpl never.
#[local] Arguments hasDirectComment : simpl never.
#[local] Arguments hasEmployeeCodeComment : simpl never.
#[local] Arguments isCriticalImport : simpl never.
#[local] Arguments String.eqb : simpl never.

(** ** Trees, by their fields *)

Lemma rebuild_keys n : rebuild n (keys_of n) = n.
Proof. destruct n; reflexivity. Qed.

Lemma same_kind_refl p : same_kind p p.
Proof. destruct p; reflexivity. Qed.

Lemma same_shape_refl ps : same_shape ps ps.
Proof. induction ps; constructor; [apply same_kind_refl | assumption]. Qed.

Lemma same_kind_trans p q r : same_kind p q -> same_kind q r -> same_kind p r.
Proof. destruct p, q, r; simpl; intros; try contradiction; congruence. Qed.

Lemma same_shape_trans ps qs rs :
  same_shape ps qs -> same_shape qs rs -> same_shape ps rs.
Proof.
  intros H. revert rs. induction H; intros rs Hq; inversion Hq; subst; constructor.
  - eapply same_kind_trans; eassumption.
  - apply IHForall2. assumption.
Qed.

Lemma keys_rebuild n ps : same_shape (keys_of n) ps -> keys_of (rebuild n ps) = ps.
Proof.
  unfold same_shape. intros H.
  destruct n; cbn [keys_of] in H;
    repeat match goal with
           | H : Forall2 _ [] _ |- _ => inversion H; subst; clear H
           | H : Forall2 _ (_ :: _) _ |- _ => inversion H; subst; clear H
           | H : same_kind (Single _ _) ?p |- _ => destruct p; cbn [same_kind] in H; [subst | contradiction]
           | H : same_kind (Multiple _ _) ?p |- _ => destruct p; cbn [same_kind] in H; [contradiction | subst]
           end; try reflexivity.
Qed.

Lemma type_of_rebuild n ps : type_of (rebuild n ps) = type_of n.
Proof.
  destruct n; try reflexivity;
    cbn [rebuild];
    repeat match goal with
           | |- context [match ?l with [] => _ | _ :: _ => _ end] => destruct l
           | |- context [match ?p with Single _ _ => _ | Multiple _ _ => _ end] => destruct p
           end; reflexivity.
Qed.

Lemma meta_of_rebuild n ps : meta_of (rebuild n ps) = meta_of n.
Proof.
  destruct n; try reflexivity;
    cbn [rebuild];
    repeat match goal with
           | |- context [match ?l with [] => _ | _ :: _ => _ end] => destruct l
           | |- context [match ?p with Single _ _ => _ | Multiple _ _ => _ end] => destruct p
           end; reflexivity.
Qed.

Lemma size_keys n : size n = S (list_sum (map part_size (keys_of n))).
Proof.
  destruct n; try (simpl; lia); reflexivity.
Qed.

Lemma size_in_list x (l : list node) : In x l -> size x <= list_sum (map size l).
Proof.
  induction l as [|a l IH]; intros H; [destruct H|].
  simpl. destruct H as [-> | H]; [lia | specialize (IH H); lia].
Qed.

Lemma child_size n p x :
  In p (keys_of n) -> In x (part_nodes p) -> size x < size n.
Proof.
  intros Hp Hx. rewrite (size_keys n).
  assert (size x <= part_size p).
  { destruct p; cbn [part_nodes part_size] in *.
    - destruct Hx as [-> | []]. lia.
    - apply size_in_list. assumption. }
  assert (part_size p <= list_sum (map part_size (keys_of n))).
  { clear - Hp. induction (keys_of n) as [|a l IH]; [destruct Hp|].
    simpl. destruct Hp as [-> | Hp]; [lia | specialize (IH Hp); lia]. }
  lia.
Qed.

(** Induction on a tree, through its fields. *)
Lemma node_by_fields (P : node -> Prop) :
  (forall n, (forall p x, In p (keys_of n) -> In x (part_nodes p) -> P x) -> P n) ->
  forall n, P n.
Proof.
  intros H n. remember (size n) as k eqn:E.
  revert n E. induction k as [k IH] using lt_wf_ind. intros n ->.
  apply H. intros p x Hp Hx. eapply IH; [|reflexivity].
  eapply child_size; eassumption.
Qed.

Lemma any_node_keys q c n :
  any_node q c n
  = q c n || existsb (part_any (fun k => any_node q (part_ctx c n k))) (keys_of n).
Proof.
  destruct n; cbn [any_node keys_of existsb part_any];
    rewrite ?orb_false_r; rewrite ?orb_assoc; reflexivity.
Qed.

Lemma subnodes_self n : In n (subnodes n).
Proof. destruct n; simpl; auto. Qed.

Lemma subnodes_in_list x y (l : list node) :
  In x l -> In y (subnodes x) -> In y (flat_map subnodes l).
Proof. intros Hx Hy. apply in_flat_map. eauto. Qed.

Lemma subnodes_child n p x y :
  In p (keys_of n) -> In x (part_nodes p) -> In y (subnodes x) -> In y (subnodes n).
Proof.
  intros Hp Hx Hy.
  destruct n; cbn [keys_of In] in Hp;
    lazymatch goal with
    | |- In _ (subnodes (OtherNode _ _ _)) => idtac
    | |- _ =>
        repeat match goal with
               | H : _ \/ _ |- _ => destruct H
               | H : False |- _ => destruct H
               end; subst; cbn [part_nodes In] in Hx;
        cbn [subnodes]; right; rewrite ?in_app_iff;
        solve [intuition (subst; eauto using subnodes_in_list)]
    end.
  cbn [subnodes]. right. apply in_flat_map. exists p. split; [assumption|].
  destruct p; cbn [part_nodes In] in Hx.
  - destruct Hx as [<- | []]. assumption.
  - eapply subnodes_in_list; eassumption.
Qed.

Lemma nodes_of_In l x y : In x l -> In y (subnodes x) -> In y (nodes_of l).
Proof. intros Hx Hy. apply in_flat_map. eauto. Qed.

(** ** The tracker as a set *)


Lemma has_In tr s : has tr s = true <-> In s tr.
Proof.
  unfold has. rewrite existsb_exists. split.
  - intros [x [Hx Heq]]. apply String.eqb_eq in Heq. now subst.
  - intros H. exists s. split; [assumption | apply String.eqb_refl].
Qed.


Lemma includes_str_In l s : includes_str l s = true <-> In s l.
Proof. exact (has_In l s). Qed.

Lemma In_add tr s x : In x (add tr s) <-> In x tr \/ x = s.
Proof.
  unfold add. destruct (has tr s) eqn:E.
  - apply has_In in E. split; [auto | intros [H | ->]; assumption].
  - rewrite in_app_iff. simpl. intuition congruence.
Qed.

Lemma In_add_all names : forall tr x,
  In x (add_all tr names) <-> In x tr \/ In x names.
Proof.
  unfold add_all. induction names as [|a names IH]; intros tr x; simpl.
  - tauto.
  - rewrite IH, In_add. intuition congruence.
Qed.

Lemma In_add_unless_critical names : forall tr x,
  In x (add_unless_critical tr names) <->
  In x tr \/ (In x names /\ includes_str CRITICAL_IMPORTS x = false).
Proof.
  unfold add_unless_critical.
  induction names as [|a names IH]; intros tr x; simpl.
  - tauto.
  - rewrite IH. destruct (includes_str CRITICAL_IMPORTS a) eqn:E.
    + intuition (subst; try congruence; auto).
    + rewrite In_add. intuition (subst; auto).
Qed.

Lemma In_trackStyles props : forall tr x,
  In x (trackStyles tr props) <->
  In x tr \/ exists prop k, In prop props /\ hasDirectComment (meta_of prop) = true
                            /\ truthy (name_of (key_of prop)) = Some k
                            /\ x = "styles." ++ k.
Proof.
  unfold trackStyles.
  induction props as [|a props IH]; intros tr x; simpl.
  - split; [auto | intros [H | (p & k & [] & _)]; assumption].
  - rewrite IH. split.
    + intros [H | (p & k & Hin & Hc & Hk & ->)].
      * destruct (hasDirectComment (meta_of a)) eqn:Ec; [|auto].
        destruct (truthy (name_of (key_of a))) as [k|] eqn:Ek; [|auto].
        apply In_add in H as [H | ->]; [auto|].
        right. exists a, k. auto.
      * right. exists p, k. auto.
    + intros [H | (p & k & [<- | Hin] & Hc & Hk & ->)].
      * left. destruct (hasDirectComment (meta_of a)); [|assumption].
        destruct (truthy (name_of (key_of a))); [|assumption].
        apply In_add. auto.
      * left. rewrite Hc, Hk. apply In_add. auto.
      * right. exists p, k. auto.
Qed.

(** ** What a traversal does to the tracker

    A relation between the tracker before and after, that every visit
    keeps, is kept by the traversal. *)

Lemma traverse_S visit k c prev tr n :
  traverse visit (S k) c prev tr n
  = if isNull n then mkResult tr (Stays Null) Null
    else match visit c prev tr n with
         | (tr0, Remove) => mkResult tr0 (Gone n) n
         | (tr0, Replace r) =>
             if isNull r then mkResult tr0 Throws n
             else
               let res := traverse visit k c prev tr0 (inheritsComments r n) in
               mkResult (r_tracker res) (r_outcome res) (removeComments n)
         | (tr0, Keep) => traverseNode (traverse visit k) c prev tr0 n
         end.
Proof. reflexivity. Qed.

Section TrackerRelation.
Variable R : tracker -> tracker -> Prop.
Hypothesis R_refl : forall t, R t t.
Hypothesis R_trans : forall a b d, R a b -> R b d -> R a d.

Section Step.
Variable rec : context -> node -> tracker -> node -> result.
Hypothesis rec_R : forall c prev tr n, R tr (r_tracker (rec c prev tr n)).

Ltac rec_step :=
  match goal with
  | |- context [rec ?c0 ?pv ?t ?y0] =>
      let H := fresh "Hrec" in
      pose proof (rec_R c0 pv t y0) as H;
      destruct (rec c0 pv t y0) as [? ? ?];
      cbn [r_tracker r_outcome r_object] in *
  end.

Ltac break_match :=
  match goal with
  | |- context [match ?x with _ => _ end] => destruct x
  end.

Ltac chain IH :=
  cbn [fst];
  first [ solve [eauto 4 using R_trans, R_refl]
        | eapply R_trans; [| apply IH]; solve [eauto 4 using R_trans, R_refl] ].

Lemma visitMultiple_R rest : forall mk listKey c tr st done extra,
  R tr (fst (fst (visitMultiple rec mk listKey c tr st done extra rest))).
Proof.
  induction rest as [|x xs IH]; intros mk listKey c tr st done extra;
    cbn [visitMultiple]; [apply R_refl|].
  destruct (isNull x); [apply IH|].
  rec_step. repeat break_match; chain IH.
Qed.

Lemma visitKeys_R n rest : forall c tr st done,
  R tr (fst (fst (visitKeys rec n c tr st done rest))).
Proof.
  induction rest as [|f ps IH]; intros c tr st done;
    cbn [visitKeys]; [apply R_refl|].
  destruct f as [key x | key items].
  - destruct st as [| |k p|]; try destruct (k =? key);
      (match goal with
       | |- context [if isNull ?y then _ else _] => destruct (isNull y)
       end; [apply IH|]);
      rec_step; repeat first [rec_step | break_match]; chain IH.
  - match goal with
    | |- context [visitMultiple rec ?mk ?k ?c0 ?t ?s0 [] [] ?its] =>
        pose proof (visitMultiple_R its mk k c0 t s0 [] []) as H;
        destruct (visitMultiple rec mk k c0 t s0 [] [] its) as [[tr1 st1] items']
    end.
    cbn [fst] in H. destruct st1; chain IH.
Qed.

Lemma traverseNode_R c prev tr n :
  R tr (r_tracker (traverseNode rec c prev tr n)).
Proof.
  unfold traverseNode.
  pose proof (visitKeys_R n (keys_of n) c tr Alive []) as H.
  destruct (visitKeys rec n c tr Alive [] (keys_of n)) as [[tr1 st] ps].
  cbn [fst] in H. destruct st; cbn [r_tracker]; try exact H.
  eapply R_trans; [exact H | apply rec_R].
Qed.
End Step.

Variable visit : visitor.
Hypothesis visit_R : forall c prev tr n, R tr (fst (visit c prev tr n)).

Lemma traverse_R fuel : forall c prev tr n,
  R tr (r_tracker (traverse visit fuel c prev tr n)).
Proof.
  induction fuel as [|k IH]; intros c prev tr n; [apply R_refl|].
  rewrite traverse_S. destruct (isNull n); [apply R_refl|].
  pose proof (visit_R c prev tr n) as H.
  destruct (visit c prev tr n) as [tr0 [| |r]]; cbn [fst] in H.
  - eapply R_trans; [exact H | apply traverseNode_R; exact IH].
  - exact H.
  - destruct (isNull r); [exact H|].
    cbn [r_tracker]. eapply R_trans; [exact H | apply IH].
Qed.

Lemma traverse_body_R tr stmts : R tr (fst (traverse_body visit tr stmts)).
Proof.
  unfold traverse_body.
  pose proof (@visitMultiple_R (traverse visit (budget stmts))
                (traverse_R (budget stmts)) stmts program "body"
                top_ctx tr Alive [] []) as H.
  destruct (visitMultiple _ _ _ _ _ _ _ _ _) as [[tr1 st] l]. exact H.
Qed.
End TrackerRelation.

(** ** The visitors only add to the tracker *)

Lemma grows_refl tr : grows tr tr.
Proof. intros s H. exact H. Qed.

Lemma grows_trans a b d : grows a b -> grows b d -> grows a d.
Proof. intros H1 H2 s H. auto. Qed.

Lemma hasDirectComment_app m :
  hasEmployeeCodeComment (leadingComments m ++ trailingComments m) = hasDirectComment m.
Proof. unfold hasDirectComment, hasEmployeeCodeComment. apply existsb_app. Qed.

(** On the two kinds of node it is called on, [shouldRemoveNode] leaves
    the tracker as it is. *)
Lemma shouldRemoveNode_element prev lines tr m om name attrs kids :
  fst (shouldRemoveNode prev lines tr (JSXElement m om name attrs kids)) = tr.
Proof.
  unfold shouldRemoveNode.
  repeat match goal with
         | |- context [if ?b then _ else _] => destruct b
         end; reflexivity.
Qed.

Lemma shouldRemoveNode_container prev lines tr m e :
  fst (shouldRemoveNode prev lines tr (JSXExpressionContainer m e)) = tr.
Proof.
  unfold shouldRemoveNode. cbn [meta_of].
  destruct (hasEmployeeCodeComment _); [reflexivity|].
  destruct e; try reflexivity.
  destruct e1; try reflexivity.
  destruct (_ && _); reflexivity.
Qed.

Lemma seedingVisitor_grows c prev tr n :
  grows tr (fst (seedingVisitor c prev tr n)).
Proof.
  intros s Hs. destruct n; simpl; try assumption.
  - destruct n; simpl; try assumption.
    destruct (_ && _); simpl; try assumption.
    destruct arguments as [|[] ?]; simpl; try assumption.
    apply In_trackStyles. auto.
  - destruct (hasDirectComment m); simpl; try assumption.
    apply In_add_unless_critical. auto.
Qed.

Lemma mainVisitor_grows lines c prev tr n :
  grows tr (fst (mainVisitor lines c prev tr n)).
Proof.
  intros s Hs. destruct n; cbn [mainVisitor]; try assumption.
  - destruct (includes_str _ _); [assumption|]. destruct (_ && _); assumption.
  - destruct (hasDirectComment m); cbn [fst]; [|assumption].
    destruct (isStyleTableEntry c); [|assumption].
    destruct (truthy _); [|assumption]. apply In_add. auto.
  - destruct (_ && _); assumption.
  - pose proof (shouldRemoveNode_element prev (Some lines) tr m openingElement name
                  attributes children) as E.
    destruct (shouldRemoveNode _ _ _ _) as [tr1 b]. simpl in E. subst tr1.
    destruct b; [assumption|]. destruct (usesRemovedStyle _ _); assumption.
  - pose proof (shouldRemoveNode_container prev None tr m n) as E.
    destruct (shouldRemoveNode _ _ _ _) as [tr1 b]. simpl in E. subst tr1.
    destruct b; [assumption|]. destruct (hasDirectComment m); assumption.
  - destruct (_ || _); [assumption|].
    destruct (_ || _); [|assumption].
    destruct (isCriticalImport _ _); cbn [fst]; [assumption|].
    apply In_add_unless_critical. auto.
  - destruct (hasDirectComment m); cbn [fst]; [|assumption].
    apply In_add_all. auto.
  - destruct (hasDirectComment m); assumption.
  - destruct (hasDirectComment m); assumption.
  - destruct (hasDirectComment m); assumption.
Qed.


(** The same for a whole pass and for a build, for any such relation. *)
Section PassRelation.
Variable R : tracker -> tracker -> Prop.
Hypothesis R_refl : forall t, R t t.
Hypothesis R_trans : forall a b d, R a b -> R b d -> R a d.
Hypothesis seeding_R : forall c prev tr n, R tr (fst (seedingVisitor c prev tr n)).
Hypothesis main_R : forall lines c prev tr n, R tr (fst (mainVisitor lines c prev tr n)).

Lemma prune_R tr f : R tr (fst (prune tr f)).
Proof.
  unfold prune.
  pose proof (@traverse_body_R R R_refl R_trans seedingVisitor seeding_R tr (body f)) as H1.
  destruct (traverse_body seedingVisitor tr (body f)) as [tr1 [body1|]];
    cbn [fst] in *; [|exact H1].
  pose proof (@traverse_body_R R R_refl R_trans _
                (main_R (findEmployeeCodeCommentLines (comments f))) tr1 body1) as H2.
  destruct (traverse_body _ tr1 body1) as [tr2 [body2|]]; cbn [fst] in *;
    eapply R_trans; eassumption.
Qed.

Lemma build_R flag files : forall tr, R tr (fst (build flag tr files)).
Proof.
  induction files as [|f files IH]; intros tr; simpl; [apply R_refl|].
  assert (H : R tr (fst (transform flag tr f))).
  { unfold transform. destruct flag; [apply R_refl | apply prune_R]. }
  destruct (transform flag tr f) as [tr1 f']. specialize (IH tr1).
  destruct (build flag tr1 files). simpl in *. eapply R_trans; eassumption.
Qed.
End PassRelation.

Lemma traverse_body_grows visit tr stmts :
  (forall c prev t n, grows t (fst (visit c prev t n))) ->
  grows tr (fst (traverse_body visit tr stmts)).
Proof. intros Hv. apply (@traverse_body_R grows grows_refl grows_trans visit Hv). Qed.

Lemma prune_grows tr f : grows tr (fst (prune tr f)).
Proof.
  apply (@prune_R grows grows_refl grows_trans seedingVisitor_grows mainVisitor_grows).
Qed.

Lemma build_grows flag files tr : grows tr (fst (build flag tr files)).
Proof.
  apply (@build_R grows grows_refl grows_trans seedingVisitor_grows mainVisitor_grows).
Qed.

(** ** Protected names and the tracker (claim C1) *)

Lemma styles_not_critical k : includes_str CRITICAL_IMPORTS ("styles." ++ k) = false.
Proof. reflexivity. Qed.

Lemma critical_free_add_unless tr names :
  critical_free tr -> critical_free (add_unless_critical tr names).
Proof.
  intros H s Hs. apply In_add_unless_critical in Hs as [Hs | [_ Hs]]; auto.
Qed.

Lemma critical_free_trackStyles tr props :
  critical_free tr -> critical_free (trackStyles tr props).
Proof.
  intros H s Hs. apply In_trackStyles in Hs as [Hs | (p & k & _ & _ & _ & ->)]; auto.
Qed.

Lemma seedingVisitor_critical_free c prev tr n :
  critical_free tr -> critical_free (fst (seedingVisitor c prev tr n)).
Proof.
  intros H. destruct n; simpl; try assumption.
  - destruct n; simpl; try assumption.
    destruct (_ && _); simpl; try assumption.
    destruct arguments as [|[] ?]; simpl; try assumption.
    apply critical_free_trackStyles, H.
  - destruct (hasDirectComment m); simpl; try assumption.
    apply critical_free_add_unless, H.
Qed.

(** The seeding traversal, which makes the check of lines 288-291,
    never tracks a protected name. *)
Lemma seeding_critical_free tr stmts :
  critical_free tr -> critical_free (fst (traverse_body seedingVisitor tr stmts)).
Proof.
  apply (@traverse_body_R (fun a b => critical_free a -> critical_free b)).
  - auto.
  - auto.
  - intros c prev t n. apply seedingVisitor_critical_free.
Qed.

(** Neither does the ImportDeclaration visitor. *)
Lemma import_visitor_critical_free lines c prev tr m source specifiers :
  critical_free tr ->
  critical_free (fst (mainVisitor lines c prev tr (ImportDeclaration m source specifiers))).
Proof.
  intros H. cbn [mainVisitor].
  destruct (_ || _); [assumption|].
  destruct (_ || _); [|assumption].
  destruct (isCriticalImport _ _); cbn [fst]; [assumption|].
  apply critical_free_add_unless, H.
Qed.

(** The check of lines 288-291 is missing from the main traversal's
    visitor (lines 450-456): handed an annotated declaration of a
    protected name, it tracks the name. *)
Lemma main_declaration_visitor_is_unguarded lines c prev :
  mainVisitor lines c prev newPlugin (const (marked 1 2) 2 "View" (number 2 1))
  = (["View"], Remove)
  /\ seedingVisitor c prev newPlugin (const (marked 1 2) 2 "View" (number 2 1))
     = ([], Remove).
Proof. split; reflexivity. Qed.

(** C1.  The protection holds where the check is written and fails
    where it is not.  The seeding traversal and the ImportDeclaration
    visitor never add a name of [CRITICAL_IMPORTS] to the tracker.  The
    VariableDeclaration visitor of the main traversal adds the declared
    names unchecked, and it does meet annotated declarations: in
    [/* @employee-code */ function secret() {}  const View = 1;] the
    removal of the function hands its comment to the declaration that
    follows, which the main traversal then removes, tracking [View];
    [Program.exit] reports the protected name. *)
Theorem critical_name_tracked_by_main_traversal :
  (forall tr stmts,
      critical_free tr -> critical_free (fst (traverse_body seedingVisitor tr stmts)))
  /\ (forall lines c prev tr m source specifiers,
        critical_free tr ->
        critical_free (fst (mainVisitor lines c prev tr
                              (ImportDeclaration m source specifiers))))
  /\ prune newPlugin functionThenViewFile = (["View"], Some (mkFile [marker 1] []))
  /\ report (fst (prune newPlugin functionThenViewFile)) = Some ["View"]
  /\ In "View" CRITICAL_IMPORTS.
Proof.
  split; [exact seeding_critical_free|].
  split; [exact import_visitor_critical_free|].
  split; [vm_compute; reflexivity|].
  split; [vm_compute; reflexivity|].
  simpl. auto.
Qed.

(** ** What a traversal leaves in the tree

    A kind of node [q] that the visitor never keeps, when the tracker
    satisfies [T], is not found in what the traversal returns. *)

Lemma existsb_false {A} (f : A -> bool) l :
  existsb f l = false <-> Forall (fun x => f x = false) l.
Proof.
  induction l as [|a l IH]; simpl.
  - split; auto.
  - rewrite orb_false_iff, IH. split.
    + intros [H1 H2]. constructor; assumption.
    + intros H. inversion H; subst. split; assumption.
Qed.

Lemma keys_of_set_meta n m : keys_of (set_meta n m) = keys_of n.
Proof. destruct n; reflexivity. Qed.

Lemma part_ctx_set_meta c n m key : part_ctx c (set_meta n m) key = part_ctx c n key.
Proof.
  destruct n; try reflexivity.
Qed.

Lemma part_ctx_parent_type c c' n key :
  a_type (parent (part_ctx c n key)) = a_type (parent (part_ctx c' n key)).
Proof.
  destruct n; try reflexivity; cbn [part_ctx];
    match goal with |- context [if ?b then _ else _] => destruct b end; reflexivity.
Qed.

Lemma part_ctx_rebuild c n ps key :
  a_type (parent (part_ctx c (rebuild n ps) key)) = a_type (parent (part_ctx c n key)).
Proof.
  destruct n; try reflexivity; cbn [rebuild];
    repeat match goal with
           | |- context [match ?l with [] => _ | _ :: _ => _ end] => destruct l
           | |- context [match ?p with Single _ _ => _ | Multiple _ _ => _ end] => destruct p
           end; try reflexivity;
    cbn [part_ctx];
    match goal with |- context [if ?b then _ else _] => destruct b end; reflexivity.
Qed.

Lemma visitMultiple_not_alive rec rest : forall mk listKey c tr st done extra,
  st <> Alive ->
  snd (fst (visitMultiple rec mk listKey c tr st done extra rest)) <> Alive.
Proof.
  induction rest as [|x xs IH]; intros mk listKey c tr st done extra Hst;
    cbn [visitMultiple]; [exact Hst|].
  destruct (isNull x); [apply IH, Hst|].
  destruct (rec c (hd Null done) tr (addLeading x extra)) as [tr1 o obj].
  cbn [r_tracker r_outcome r_object].
  destruct o; [apply IH, Hst | | cbn; discriminate].
  destruct (shareCommentsWithSiblings _ _ _).
  destruct st; try contradiction;
    destruct (removalHook _ _ _) as [|k [q|]| |];
    try (cbn; discriminate); try (apply IH; discriminate).
Qed.

Lemma visitKeys_not_alive rec n rest : forall c tr st done,
  st <> Alive ->
  snd (fst (visitKeys rec n c tr st done rest)) <> Alive.
Proof.
  induction rest as [|f ps IH]; intros c tr st done Hst;
    cbn [visitKeys]; [exact Hst|].
  destruct f as [key x | key items].
  - destruct st as [| |k p|]; try contradiction; try destruct (k =? key);
      (match goal with
       | |- context [if isNull ?y then _ else _] => destruct (isNull y)
       end; [apply IH; discriminate|]);
      repeat match goal with
             | |- context [match ?x with _ => _ end] => destruct x
             end;
      first [cbn; discriminate | apply IH; discriminate].
  - match goal with
    | |- context [visitMultiple rec ?mk ?k ?c0 ?t ?s0 [] [] ?its] =>
        pose proof (@visitMultiple_not_alive rec its mk k c0 t s0 [] [] Hst) as H;
        destruct (visitMultiple rec mk k c0 t s0 [] [] its) as [[tr1 st1] items']
    end.
    cbn [fst snd] in H. destruct st1; try contradiction;
      first [cbn; discriminate | apply IH; discriminate].
Qed.

(** The fields keep their keys. *)
Lemma same_shape_app a b a' b' :
  same_shape a a' -> same_shape b b' -> same_shape (a ++ b) (a' ++ b').
Proof. apply Forall2_app. Qed.

Lemma same_shape_set_single k x ps : same_shape ps (set_single k x ps).
Proof.
  induction ps as [|p ps IH]; constructor; [|exact IH].
  destruct p; cbn; [destruct (_ =? _)|]; reflexivity.
Qed.

Lemma same_shape_rev ps ps' : same_shape ps ps' -> same_shape (rev ps) (rev ps').
Proof.
  induction 1; cbn [rev]; [constructor|].
  apply same_shape_app; [assumption|]. constructor; [assumption | constructor].
Qed.

Lemma visitKeys_shape rec n rest : forall c tr st done,
  same_shape (rev done ++ rest) (snd (visitKeys rec n c tr st done rest)).
Proof.
  assert (E : forall (done : list (part node)) p ps,
             (rev (p :: done) ++ ps = rev done ++ p :: ps)%list).
  { intros. cbn [rev]. rewrite <- app_assoc. reflexivity. }
  assert (S1 : forall (done : list (part node)) ps k x y,
             same_shape (rev done ++ Single k x :: ps) (rev done ++ Single k y :: ps)).
  { intros. apply same_shape_app; [apply same_shape_refl|].
    constructor; [reflexivity | apply same_shape_refl]. }
  assert (M1 : forall (done : list (part node)) ps k x y,
             same_shape (rev done ++ Multiple k x :: ps) (rev done ++ Multiple k y :: ps)).
  { intros. apply same_shape_app; [apply same_shape_refl|].
    constructor; [reflexivity | apply same_shape_refl]. }
  induction rest as [|f ps IH]; intros c tr st done; cbn [visitKeys].
  - cbn [snd]. rewrite app_nil_r. apply same_shape_refl.
  - destruct f as [key x | key items].
    + destruct st as [| |k p|]; try destruct (k =? key);
        (match goal with
         | |- context [if isNull ?y then _ else _] => destruct (isNull y)
         end;
         [eapply same_shape_trans; [|apply IH]; rewrite E; apply S1|]);
        repeat match goal with
               | |- context [match ?x with _ => _ end] => destruct x
               end;
        cbn [snd];
        first [ apply S1
              | eapply same_shape_trans; [|apply IH]; rewrite E; apply S1
              | eapply same_shape_trans; [|apply IH]; rewrite E;
                apply same_shape_app;
                [ apply same_shape_rev; apply same_shape_set_single
                | constructor; [reflexivity | apply same_shape_refl] ] ].
    + destruct (visitMultiple _ _ _ _ _ _ _ _ _) as [[tr1 st1] items'].
      destruct st1; cbn [snd];
        first [ apply M1 | eapply same_shape_trans; [|apply IH]; rewrite E; apply M1 ].
Qed.

Lemma existsb_ext_in {A} (f g : A -> bool) l :
  (forall a, In a l -> f a = g a) -> existsb f l = existsb g l.
Proof.
  induction l as [|a l IH]; intros H; [reflexivity|].
  cbn [existsb]. rewrite (H a (or_introl eq_refl)), IH; [reflexivity|].
  intros b Hb. apply H. right. exact Hb.
Qed.

Section Clean.
Variable visit : visitor.
Variable q : context -> node -> bool.
Variable T : tracker -> Prop.
Hypothesis visit_T : forall c prev tr n, T tr -> T (fst (visit c prev tr n)).
Hypothesis visit_keep : forall c prev tr n tr',
    T tr -> visit c prev tr n = (tr', Keep) -> q c n = false.
Hypothesis q_meta : forall c n m, q c (set_meta n m) = q c n.
Hypothesis q_rebuild : forall c n ps, q c (rebuild n ps) = q c n.
Hypothesis q_ctx : forall c c' n,
    a_type (parent c) = a_type (parent c') -> q c n = q c' n.
Hypothesis q_null : forall c, q c Null = false.

Lemma any_node_ctx s : forall c c',
  a_type (parent c) = a_type (parent c') -> any_node q c s = any_node q c' s.
Proof.
  induction s as [s IH] using node_by_fields. intros c c' E.
  rewrite !any_node_keys. f_equal; [apply q_ctx, E|].
  apply existsb_ext_in. intros p Hp.
  destruct p as [k x | k l]; cbn [part_any].
  - apply (IH _ x Hp); [left; reflexivity | apply part_ctx_parent_type].
  - apply existsb_ext_in. intros x Hx.
    apply (IH _ x Hp); [exact Hx | apply part_ctx_parent_type].
Qed.

Lemma any_node_set_meta c n m : any_node q c (set_meta n m) = any_node q c n.
Proof.
  rewrite !any_node_keys, q_meta, keys_of_set_meta. f_equal.
  apply existsb_ext_in. intros [k x | k l] _; cbn [part_any];
    rewrite part_ctx_set_meta; reflexivity.
Qed.

Lemma any_node_addLeading c n cs : any_node q c (addLeading n cs) = any_node q c n.
Proof. destruct cs; [reflexivity | apply any_node_set_meta]. Qed.

Lemma any_node_addTrailing c n cs : any_node q c (addTrailing n cs) = any_node q c n.
Proof. destruct cs; [reflexivity | apply any_node_set_meta]. Qed.

Lemma any_node_Null c : any_node q c Null = false.
Proof. cbn. rewrite q_null. reflexivity. Qed.

Let cleanl (c : context) (l : list node) : Prop :=
  Forall (fun x => any_node q c x = false) l.

Let cleanp (c : context) (n : node) (ps : list (part node)) : Prop :=
  Forall (fun p => part_any (fun k => any_node q (part_ctx c n k)) p = false) ps.

Section CleanStep.
Variable rec : context -> node -> tracker -> node -> result.
Hypothesis rec_T : forall c prev tr n, T tr -> T (r_tracker (rec c prev tr n)).
Hypothesis rec_clean : forall c prev tr n s,
    T tr -> r_outcome (rec c prev tr n) = Stays s -> any_node q c s = false.

Ltac rec_call :=
  match goal with
  | HT : T ?t |- context [rec ?c0 ?pv ?t ?y0] =>
      let H1 := fresh "HT" in
      let H2 := fresh "HC" in
      pose proof (rec_T c0 pv y0 HT) as H1;
      pose proof (fun s => @rec_clean c0 pv t y0 s HT) as H2;
      destruct (rec c0 pv t y0) as [? ? ?];
      cbn [r_tracker r_outcome r_object] in *
  end.

Lemma visitMultiple_T rest mk listKey c tr st done extra :
  T tr -> T (fst (fst (visitMultiple rec mk listKey c tr st done extra rest))).
Proof.
  exact (@visitMultiple_R (fun a b => T a -> T b) (fun t H => H)
           (fun a b d H1 H2 H => H2 (H1 H)) rec rec_T rest mk listKey c tr st done extra).
Qed.

Lemma visitMultiple_clean rest : forall mk listKey c tr done extra,
  T tr -> cleanl c done ->
  snd (fst (visitMultiple rec mk listKey c tr Alive done extra rest)) = Alive ->
  cleanl c (snd (visitMultiple rec mk listKey c tr Alive done extra rest)).
Proof.
  induction rest as [|x xs IH]; intros mk listKey c tr done extra HT Hd;
    cbn [visitMultiple].
  - intros _. cbn [snd]. apply Forall_rev. exact Hd.
  - destruct (isNull x) eqn:Ex.
    { apply IH; [exact HT|]. constructor; [|exact Hd].
      destruct x; try discriminate. apply any_node_Null. }
    rec_call.
    match goal with
    | |- context [match ?o with Stays _ => _ | Gone _ => _ | Throws => _ end] =>
        destruct o as [s|g|]
    end.
    + apply IH; [assumption|]. constructor; [|exact Hd]. apply HC. reflexivity.
    + destruct (shareCommentsWithSiblings _ _ _) as [prev' extra'] eqn:Es.
      destruct (removalHook _ _ _) as [|k [p|]| |];
        try destruct (isNull p);
        try (cbn [fst snd]; discriminate);
        try (intros H; exfalso; revert H; apply visitMultiple_not_alive; discriminate).
      apply IH; [assumption|].
      unfold shareCommentsWithSiblings in Es. injection Es as <- _.
      destruct done as [|d ds]; [constructor|].
      cbn [set_head hd]. inversion Hd; subst.
      constructor; [|assumption].
      destruct (negb (isNull d)); [rewrite any_node_addTrailing|]; assumption.
    + cbn [fst snd]. discriminate.
Qed.

Lemma visitKeys_T n rest c tr st done :
  T tr -> T (fst (fst (visitKeys rec n c tr st done rest))).
Proof.
  exact (@visitKeys_R (fun a b => T a -> T b) (fun t H => H)
           (fun a b d H1 H2 H => H2 (H1 H)) rec rec_T n rest c tr st done).
Qed.

Lemma cleanp_rebuild c n ps ps0 : cleanp c n ps <-> cleanp c (rebuild n ps0) ps.
Proof.
  unfold cleanp. rewrite !Forall_forall.
  assert (E : forall p, part_any (fun k => any_node q (part_ctx c (rebuild n ps0) k)) p
                        = part_any (fun k => any_node q (part_ctx c n k)) p).
  { intros [k x | k l]; cbn [part_any].
    - apply any_node_ctx, part_ctx_rebuild.
    - apply existsb_ext_in. intros x _. apply any_node_ctx, part_ctx_rebuild. }
  split; intros H p Hp; [rewrite E | rewrite <- E]; auto.
Qed.

Lemma visitKeys_clean n rest : forall c tr done,
  T tr -> cleanp c n done ->
  snd (fst (visitKeys rec n c tr Alive done rest)) = Alive ->
  cleanp c n (snd (visitKeys rec n c tr Alive done rest)).
Proof.
  induction rest as [|f ps IH]; intros c tr done HT Hd; cbn [visitKeys].
  - intros _. cbn [snd]. apply Forall_rev. exact Hd.
  - destruct f as [key x | key items].
    + destruct (isNull x) eqn:Ex.
      { apply IH; [exact HT|]. constructor; [|exact Hd].
        destruct x; try discriminate. cbn [part_any]. apply any_node_Null. }
      rec_call.
      match goal with
      | |- context [match ?o with Stays _ => _ | Gone _ => _ | Throws => _ end] =>
          destruct o as [s|g|]
      end.
      * apply IH; [assumption|]. constructor; [|exact Hd]. cbn [part_any].
        erewrite any_node_ctx; [apply HC; reflexivity|].
        symmetry. apply part_ctx_rebuild.
      * destruct (removalHook _ _ _) as [|k [p|]| |];
          try destruct (isNull p);
          try (cbn [fst snd]; discriminate);
          try (intros H; exfalso; revert H; apply visitKeys_not_alive; discriminate).
        -- rec_call.
           match goal with
           | |- context [match ?o with Stays _ => _ | Gone _ => _ | Throws => _ end] =>
               destruct o as [s|g'|]
           end; try (cbn [fst snd]; discriminate).
           apply IH; [assumption|]. constructor; [|exact Hd]. cbn [part_any].
           erewrite any_node_ctx; [apply HC0; reflexivity|].
           symmetry. apply part_ctx_rebuild.
        -- destruct (optionalField _ _); [|cbn [fst snd]; discriminate].
           apply IH; [assumption|]. constructor; [|exact Hd]. cbn [part_any].
           apply any_node_Null.
      * cbn [fst snd]. discriminate.
    + match goal with
      | |- context [visitMultiple rec ?mk ?k ?c0 ?t Alive [] [] ?its] =>
          pose proof (@visitMultiple_T its mk k c0 t Alive [] [] HT) as HT1;
          pose proof (@visitMultiple_clean its mk k c0 t [] [] HT (Forall_nil _)) as HC1;
          destruct (visitMultiple rec mk k c0 t Alive [] [] its) as [[tr1 st1] items']
      end.
      cbn [fst snd] in *.
      destruct st1;
        try (cbn [fst snd]; discriminate);
        try (intros H; exfalso; revert H; apply visitKeys_not_alive; discriminate).
      apply IH; [assumption|]. constructor; [|exact Hd]. cbn [part_any].
      specialize (HC1 eq_refl). apply existsb_false.
      eapply Forall_impl; [|exact HC1]. cbn beta. intros a Ha.
      erewrite any_node_ctx; [exact Ha|].
      symmetry. apply part_ctx_rebuild.
Qed.

Lemma traverseNode_clean c prev tr n s :
  T tr -> q c n = false ->
  r_outcome (traverseNode rec c prev tr n) = Stays s -> any_node q c s = false.
Proof.
  intros HT Hq. unfold traverseNode.
  pose proof (@visitKeys_T n (keys_of n) c tr Alive [] HT) as HT1.
  pose proof (@visitKeys_clean n (keys_of n) c tr [] HT (Forall_nil _)) as HC1.
  pose proof (visitKeys_shape rec n (keys_of n) c tr Alive []) as HS.
  destruct (visitKeys rec n c tr Alive [] (keys_of n)) as [[tr1 st] ps].
  cbn [fst snd rev app] in *.
  destruct st; cbn [r_outcome]; try discriminate.
  - intros E. injection E as <-. specialize (HC1 eq_refl).
    rewrite any_node_keys, q_rebuild, Hq, (keys_rebuild _ HS). cbn [orb].
    apply existsb_false. apply cleanp_rebuild. exact HC1.
  - apply rec_clean. exact HT1.
Qed.
End CleanStep.

Lemma traverse_T fuel c prev tr n :
  T tr -> T (r_tracker (traverse visit fuel c prev tr n)).
Proof.
  exact (@traverse_R (fun a b => T a -> T b) (fun t H => H)
           (fun a b d H1 H2 H => H2 (H1 H)) visit visit_T fuel c prev tr n).
Qed.

Lemma traverse_clean fuel : forall c prev tr n s,
  T tr -> r_outcome (traverse visit fuel c prev tr n) = Stays s ->
  any_node q c s = false.
Proof.
  induction fuel as [|k IH]; intros c prev tr n s HT; [discriminate|].
  rewrite traverse_S. destruct (isNull n).
  { cbn [r_outcome]. intros E. injection E as <-. apply any_node_Null. }
  pose proof (visit_T c prev n HT) as HT0.
  pose proof (@visit_keep c prev tr n) as HK.
  destruct (visit c prev tr n) as [tr0 [| |r]]; cbn [fst] in HT0.
  - apply traverseNode_clean.
    + intros. apply traverse_T. assumption.
    + exact IH.
    + exact HT0.
    + eapply HK; [exact HT | reflexivity].
  - discriminate.
  - destruct (isNull r); [discriminate|]. cbn [r_outcome]. apply IH. exact HT0.
Qed.

Lemma traverse_body_clean tr stmts stmts' :
  T tr -> snd (traverse_body visit tr stmts) = Some stmts' ->
  any_stmt q stmts' = false.
Proof.
  intros HT. unfold traverse_body.
  pose proof (@visitMultiple_clean (traverse visit (budget stmts))
                (fun c prev t n => @traverse_T (budget stmts) c prev t n)
                (traverse_clean (budget stmts))
                stmts program "body" top_ctx tr [] [] HT (Forall_nil _)) as H.
  destruct (visitMultiple _ _ _ _ _ _ _ _ _) as [[tr1 st] l].
  cbn [fst snd] in *. destruct st; try discriminate.
  intros E. injection E as <-. apply existsb_false. apply H. reflexivity.
Qed.
End Clean.

(** ** A traversal whose visitor keeps every node

    When the visitor keeps every node of a tree, the traversal returns
    the tree as it is, and the tracker has been through the visitor at
    every node. *)

Lemma subnodes_by_fields n :
  subnodes n = n :: flat_map (fun p => flat_map subnodes (part_nodes p)) (keys_of n).
Proof.
  destruct n; cbn [subnodes keys_of flat_map part_nodes];
    rewrite ?app_nil_r; try reflexivity.
  f_equal. apply flat_map_ext. intros [k x | k l]; cbn [part_nodes flat_map];
    rewrite ?app_nil_r; reflexivity.
Qed.

Lemma subnodes_inv n y :
  In y (subnodes n) ->
  y = n \/ exists p x, In p (keys_of n) /\ In x (part_nodes p) /\ In y (subnodes x).
Proof.
  rewrite subnodes_by_fields. intros [<- | H]; [left; reflexivity | right].
  apply in_flat_map in H as (p & Hp & H).
  apply in_flat_map in H as (x & Hx & H). eauto.
Qed.

Lemma any_node_none (q : node -> bool) n : forall c,
  any_node (fun _ => q) c n = false -> forall x, In x (subnodes n) -> q x = false.
Proof.
  induction n as [n IH] using node_by_fields. intros c H x Hx.
  rewrite any_node_keys in H. apply orb_false_iff in H as [Hq H].
  apply subnodes_inv in Hx as [-> | (p & y & Hp & Hy & Hx)]; [exact Hq|].
  rewrite existsb_false, Forall_forall in H. specialize (H p Hp).
  destruct p as [k z | k l]; cbn [part_any part_nodes] in *.
  - destruct Hy as [<- | []]. eapply IH; eauto. left. reflexivity.
  - rewrite existsb_false, Forall_forall in H. eapply IH; eauto.
Qed.

Lemma any_stmt_none (q : node -> bool) stmts :
  any_stmt (fun _ => q) stmts = false -> forall x, In x (nodes_of stmts) -> q x = false.
Proof.
  unfold any_stmt, nodes_of. rewrite existsb_false, Forall_forall.
  intros H x Hx. apply in_flat_map in Hx as (s & Hs & Hx).
  eapply any_node_none; eauto.
Qed.

Section KeepOnly.
Variable visit : visitor.
Variable ok : node -> Prop.
Variable T : tracker -> Prop.
Hypothesis ok_Null : ok Null.
Hypothesis visit_keeps : forall c prev tr n,
    T tr -> ok n -> ok prev ->
    snd (visit c prev tr n) = Keep /\ T (fst (visit c prev tr n)).
Hypothesis visit_grows : forall c prev tr n, grows tr (fst (visit c prev tr n)).

(** The tracker [t] holds what the visitor adds at each node of [x]. *)
Let reach (x : node) (t : tracker) : Prop :=
  forall y, In y (subnodes x) -> isNull y = false ->
            exists c prev ty, grows (fst (visit c prev ty y)) t.

Let kept (rec : context -> node -> tracker -> node -> result) (x : node) : Prop :=
  forall c prev tr, T tr -> ok prev ->
    exists tr', rec c prev tr x = mkResult tr' (Stays x) x
                /\ T tr' /\ grows tr tr' /\ reach x tr'.

Lemma reach_grows x t t' : reach x t -> grows t t' -> reach x t'.
Proof.
  intros H G y Hy Hn. destruct (H y Hy Hn) as (c & p & ty & Hg).
  exists c, p, ty. intros s Hs. auto.
Qed.

Section KeepStep.
Variable rec : context -> node -> tracker -> node -> result.

Lemma visitMultiple_kept rest : forall mk listKey c tr done,
  (forall x, In x rest -> kept rec x) ->
  Forall ok done -> Forall ok rest -> T tr ->
  exists tr', visitMultiple rec mk listKey c tr Alive done [] rest
              = (tr', Alive, (rev done ++ rest)%list)
              /\ T tr' /\ grows tr tr' /\ forall x, In x rest -> reach x tr'.
Proof.
  induction rest as [|x xs IH]; intros mk listKey c tr done Hk Hd Hr HT;
    cbn [visitMultiple].
  - exists tr. rewrite app_nil_r. repeat split; auto. intros s Hs. exact Hs.
    intros x [].
  - assert (E : (rev (x :: done) ++ xs = rev done ++ x :: xs)%list).
    { cbn [rev]. rewrite <- app_assoc. reflexivity. }
    inversion Hr as [|? ? Hx Hxs]; subst.
    destruct (isNull x) eqn:Ex.
    + destruct (IH mk listKey c tr (x :: done)) as (tr' & E1 & HT' & G & R);
        auto using in_cons.
      exists tr'. rewrite E1, E. repeat split; auto.
      intros y [<- | Hy]; [|auto].
      intros z Hz Hn. destruct x; try discriminate.
      destruct Hz as [<- | []]. discriminate.
    + cbn [addLeading].
      assert (Hp : ok (hd Null done)).
      { destruct done; [exact ok_Null | inversion Hd; assumption]. }
      destruct (Hk x (or_introl eq_refl) c (hd Null done) tr HT Hp)
        as (tr1 & E1 & HT1 & G1 & R1).
      rewrite E1. cbn [r_tracker r_outcome r_object].
      destruct (IH mk listKey c tr1 (x :: done)) as (tr' & E2 & HT' & G & R);
        auto using in_cons.
      exists tr'. rewrite E2, E. repeat split; auto.
      * intros s Hs. auto.
      * intros y [<- | Hy]; [|auto]. eapply reach_grows; eassumption.
Qed.

Lemma visitKeys_kept n rest : forall c tr done,
  (forall p x, In p rest -> In x (part_nodes p) -> kept rec x /\ ok x) ->
  T tr ->
  exists tr', visitKeys rec n c tr Alive done rest
              = (tr', Alive, (rev done ++ rest)%list)
              /\ T tr' /\ grows tr tr'
              /\ forall p x, In p rest -> In x (part_nodes p) -> reach x tr'.
Proof.
  induction rest as [|f ps IH]; intros c tr done Hk HT; cbn [visitKeys].
  - exists tr. rewrite app_nil_r. repeat split; auto. intros s Hs. exact Hs.
    intros p x [].
  - assert (E : (rev (f :: done) ++ ps = rev done ++ f :: ps)%list).
    { cbn [rev]. rewrite <- app_assoc. reflexivity. }
    assert (Hk' : forall p x, In p ps -> In x (part_nodes p) -> kept rec x /\ ok x).
    { intros p x Hp. apply Hk. right. exact Hp. }
    destruct f as [key x | key items].
    + destruct (isNull x) eqn:Ex.
      * destruct (IH c tr (Single key x :: done) Hk' HT) as (tr' & E1 & HT' & G & R).
        exists tr'. rewrite E1, E. repeat split; auto.
        intros p y [<- | Hp] Hy; [|eauto].
        destruct Hy as [<- | []]. intros z Hz Hn. destruct x; try discriminate.
        destruct Hz as [<- | []]. discriminate.
      * destruct (Hk (Single key x) x (or_introl eq_refl) (or_introl eq_refl))
          as [Hkx _].
        match goal with
        | |- context [rec ?c0 Null tr x] =>
            destruct (Hkx c0 Null tr HT ok_Null) as (tr1 & E1 & HT1 & G1 & R1)
        end.
        rewrite E1. cbn [r_tracker r_outcome r_object].
        destruct (IH c tr1 (Single key x :: done) Hk' HT1) as (tr' & E2 & HT' & G & R).
        exists tr'. rewrite E2, E. repeat split; auto.
        -- intros s Hs. auto.
        -- intros p y [<- | Hp] Hy; [|eauto].
           destruct Hy as [<- | []]. eapply reach_grows; eassumption.
    + match goal with
      | |- context [visitMultiple rec ?mk ?k ?c0 tr Alive [] [] items] =>
          destruct (@visitMultiple_kept items mk k c0 tr [])
            as (tr1 & E1 & HT1 & G1 & R1)
      end.
      * intros x Hx. apply (Hk (Multiple key items) x); [left; reflexivity | exact Hx].
      * constructor.
      * apply Forall_forall. intros x Hx.
        apply (Hk (Multiple key items) x); [left; reflexivity | exact Hx].
      * exact HT.
      * rewrite E1. cbn [rev app].
        destruct (IH c tr1 (Multiple key items :: done) Hk' HT1)
          as (tr' & E2 & HT' & G & R).
        exists tr'. rewrite E2, E. repeat split; auto.
        -- intros s Hs. auto.
        -- intros p y [<- | Hp] Hy; [|eauto].
           cbn [part_nodes] in Hy. eapply reach_grows; eauto.
Qed.
End KeepStep.

Lemma traverse_kept fuel : forall n,
  size n <= fuel -> (forall x, In x (subnodes n) -> ok x) ->
  kept (traverse visit fuel) n.
Proof.
  induction fuel as [|k IH]; intros n Hs Hok c prev tr HT Hp.
  { destruct n; simpl in Hs; lia. }
  rewrite traverse_S. destruct (isNull n) eqn:En.
  { destruct n; try discriminate. exists tr. repeat split; auto.
    - intros s Hs'. exact Hs'.
    - intros y [<- | []]. discriminate. }
  destruct (@visit_keeps c prev tr n HT (Hok n (subnodes_self n)) Hp) as [Ev HT0].
  pose proof (visit_grows c prev tr n) as G0.
  destruct (visit c prev tr n) as [tr0 a] eqn:Evis. cbn [fst snd] in *. subst a.
  unfold traverseNode.
  destruct (@visitKeys_kept (traverse visit k) n (keys_of n) c tr0 [])
    as (tr' & E & HT' & G & R); [|exact HT0|].
  { intros p x Hp' Hx. split.
    - apply IH.
      + pose proof (child_size n p x Hp' Hx). lia.
      + intros y Hy. apply Hok. eapply subnodes_child; eassumption.
    - apply Hok. eapply subnodes_child; [eassumption | eassumption | apply subnodes_self]. }
  rewrite E. cbn [rev app]. rewrite rebuild_keys.
  exists tr'. repeat split; auto.
  - intros s Hs'. auto.
  - intros y Hy Hn. apply subnodes_inv in Hy as [-> | (p & x & Hp' & Hx & Hy)].
    + exists c, prev, tr. rewrite Evis. exact G.
    + apply (R p x Hp' Hx y Hy Hn).
Qed.

Lemma traverse_body_kept tr stmts :
  T tr -> (forall x, In x (nodes_of stmts) -> ok x) ->
  exists tr', traverse_body visit tr stmts = (tr', Some stmts)
              /\ T tr' /\ grows tr tr'
              /\ forall y, In y (nodes_of stmts) -> isNull y = false ->
                           exists c prev ty, grows (fst (visit c prev ty y)) tr'.
Proof.
  intros HT Hok. unfold traverse_body.
  destruct (@visitMultiple_kept (traverse visit (budget stmts)) stmts
              program "body" top_ctx tr [])
    as (tr' & E & HT' & G & R); [| constructor | | exact HT |].
  - intros x Hx. apply traverse_kept.
    + pose proof (size_in_list x stmts Hx). unfold budget. lia.
    + intros y Hy. apply Hok. eapply nodes_of_In; eassumption.
  - apply Forall_forall. intros x Hx. apply Hok.
    eapply nodes_of_In; [eassumption | apply subnodes_self].
  - rewrite E. cbn [rev app]. exists tr'. repeat split; auto.
    intros y Hy Hn. unfold nodes_of in Hy. apply in_flat_map in Hy as (x & Hx & Hy).
    apply (R x Hx y Hy Hn).
Qed.
End KeepOnly.

(** ** The annotation line set and the line heuristic (claim C9) *)

Lemma In_findEmployeeCodeCommentLines cs x :
  In x (findEmployeeCodeCommentLines cs) <->
  exists c l, In c cs /\ isEmployeeCodeComment c = true /\ cloc c = Some l
              /\ (x = l \/ x = l + 1).
Proof.
  unfold findEmployeeCodeCommentLines. rewrite in_flat_map. split.
  - intros (c & Hc & Hx). destruct (isEmployeeCodeComment c) eqn:E; [|destruct Hx].
    destruct (cloc c) as [l|] eqn:El; [|destruct Hx].
    exists c, l. simpl in Hx. intuition.
  - intros (c & l & Hc & E & El & Hx). exists c. split; [assumption|].
    rewrite E, El. simpl. intuition.
Qed.

Lemma has_line_In lines l : has_line lines l = true <-> In l lines.
Proof.
  unfold has_line. rewrite existsb_exists. split.
  - intros (x & Hx & E). apply Nat.eqb_eq in E. now subst.
  - intros H. exists l. split; [assumption | apply Nat.eqb_refl].
Qed.

(** C9.  The line set holds exactly the start line of every annotation
    comment and the line after it; the line heuristic fires on an
    element exactly when the element's start line is in that set; and an
    element that starts two or more lines below every annotation comment
    (or above it) is not removed by that rule: with no other reason to
    remove it, the JSXElement visitor keeps it. *)
Theorem line_heuristic_boundary (cs : list comment) :
  let lines := findEmployeeCodeCommentLines cs in
  (forall x, In x lines <->
             exists c l, In c cs /\ isEmployeeCodeComment c = true
                         /\ cloc c = Some l /\ (x = l \/ x = l + 1))
  /\ (forall m, onEmployeeCodeLine m (Some lines) = true <->
                exists s, loc m = Some s /\ In s lines)
  /\ (forall m s,
        loc m = Some s ->
        (forall c l, In c cs -> isEmployeeCodeComment c = true -> cloc c = Some l ->
                     l + 2 <= s \/ s < l) ->
        onEmployeeCodeLine m (Some lines) = false
        /\ forall c prev tr om name attrs kids,
             hasDirectComment m = false ->
             hasDirectComment om = false ->
             match elementName name with Some x => has tr x | None => false end = false ->
             hasStyleProp tr attrs = false ->
             usesRemovedStyle tr attrs = false ->
             mainVisitor lines c prev tr (JSXElement m om name attrs kids) = (tr, Keep)).
Proof.
  intros lines. split; [|split].
  - intros x. apply In_findEmployeeCodeCommentLines.
  - intros m. unfold onEmployeeCodeLine. destruct (loc m) as [s|].
    + rewrite has_line_In. split; [eauto | intros (s' & [= <-] & H); exact H].
    + split; [discriminate | intros (s & [=] & _)].
  - intros m s Hs Hfar.
    assert (Hline : onEmployeeCodeLine m (Some lines) = false).
    { unfold onEmployeeCodeLine. rewrite Hs.
      destruct (has_line lines s) eqn:E; [|reflexivity].
      apply has_line_In, In_findEmployeeCodeCommentLines in E
        as (c & l & Hc & Ha & Hl & Hx).
      specialize (Hfar c l Hc Ha Hl). lia. }
    split; [exact Hline|].
    intros c prev tr om name attrs kids Hm Hom Htag Hstyle Huses.
    cbn [mainVisitor]. unfold shouldRemoveNode. cbn [meta_of].
    rewrite hasDirectComment_app, Hm.
    unfold hasDirectComment in Hom. rewrite Hom, Htag, Hline, Hstyle, Huses.
    reflexivity.
Qed.

(** The theorem at a comment on line 3 and an element on line 5. *)
Lemma line_heuristic_boundary_witness :
  onEmployeeCodeLine (at_line 5) (Some (findEmployeeCodeCommentLines [marker 3])) = false.
Proof.
  refine (proj1 (proj2 (proj2 (line_heuristic_boundary [marker 3])) (at_line 5) 5 eq_refl _)).
  intros c l [<- | []] _ [= <-]. left. apply Nat.le_refl.
Defined.


(** ** The render guard inside a container (claim C6) *)

(** C6.  The JSXExpressionContainer visitor only ever keeps or removes a
    container: the replacement by [{null}] in [replaceWithEmptyIfNeeded]
    is tried only when [shouldRemoveNode] has answered no, which it never
    does for an annotated container.  On
    [<View>{IS_EMPLOYEE_MODE && <Secret/>}</View>] the container is
    deleted from the children of [View], whether the annotation is
    absent, on the container or on the logical expression. *)
Theorem guarded_container_is_deleted :
  (forall lines c prev tr m e,
      snd (mainVisitor lines c prev tr (JSXExpressionContainer m e)) = Keep
      \/ snd (mainVisitor lines c prev tr (JSXExpressionContainer m e)) = Remove)
  /\ prune newPlugin (guardedRenderFile [] (at_line 2) (at_line 2))
     = ([], Some (emptyViewFile []))
  /\ prune newPlugin (guardedRenderFile [marker 2] (marked 2 2) (at_line 2))
     = ([], Some (emptyViewFile [marker 2]))
  /\ prune newPlugin (guardedRenderFile [marker 2] (at_line 2) (marked 2 2))
     = ([], Some (emptyViewFile [marker 2])).
Proof.
  split; [|repeat split; vm_compute; reflexivity].
  intros lines c prev tr m e. cbn [mainVisitor].
  destruct (shouldRemoveNode prev None tr (JSXExpressionContainer m e)) as [tr1 b] eqn:E.
  destruct b; [right; reflexivity|].
  unfold shouldRemoveNode in E. cbn [meta_of] in E.
  rewrite hasDirectComment_app in E.
  destruct (hasDirectComment m); [discriminate E | left; reflexivity].
Qed.

(** ** The mode-flag scenario (claim C7) *)



(** ** Variables initialised with a tracked name (claim C8) *)

(** In [aliasFile] the declaration of [X] does go, and [X] is tracked:
    the removal of the declaration of [Y] hands its comment to it, and
    the seeding traversal takes it for an annotated declaration. *)
Lemma alias_removed_by_hand_over :
  prune newPlugin aliasFile = (["Y"; "X"], Some (mkFile [marker 1] [])).
Proof. vm_compute. reflexivity. Qed.

(** C8.  No visitor is registered for declarators, so the declarator
    branch of [shouldRemoveNode], which would remove the declarator and
    track its name, never runs.  In [aliasBehindExportFile] the
    declaration of [X] stays, [X] is not tracked, and the initialiser
    becomes [undefined]. *)
Theorem alias_declarator_is_kept :
  (forall lines c prev tr m id init,
      mainVisitor lines c prev tr (VariableDeclarator m id init) = (tr, Keep)
      /\ seedingVisitor c prev tr (VariableDeclarator m id init) = (tr, Keep))
  /\ (forall prev lines tr m mi x my y,
        hasDirectComment m = false -> has tr y = true -> x <> "" ->
        shouldRemoveNode prev lines tr
          (VariableDeclarator m (Identifier mi x) (Identifier my y))
        = (add tr x, true))
  /\ prune newPlugin aliasBehindExportFile
     = (["Y"],
        Some (mkFile [marker 1]
                [ exportDefault (marked 1 3) (aliasInFunction undefinedIdentifier) ])).
Proof.
  split; [intros; split; reflexivity|]. split; [|vm_compute; reflexivity].
  intros prev lines tr m mi x my y Hm Hy Hx.
  unfold shouldRemoveNode. cbn [meta_of]. rewrite hasDirectComment_app, Hm, Hy.
  cbn [name_of truthy]. apply String.eqb_neq in Hx. rewrite Hx. reflexivity.
Qed.

(** ** The tracker across the files of a build (claim C2) *)

(** C2, as the code has it.  The tracker belongs to the plugin instance:
    when one instance prunes two files, the pass over the second starts
    from the tracker left by the first, and every name tracked while
    pruning the first is still tracked once the second is pruned. *)
Theorem tracker_lives_with_the_plugin (f1 f2 : file) :
  let tr1 := fst (prune newPlugin f1) in
  build false newPlugin [f1; f2]
  = (fst (prune tr1 f2), [snd (prune newPlugin f1); snd (prune tr1 f2)])
  /\ grows tr1 (fst (traverse_body seedingVisitor tr1 (body f2)))
  /\ grows tr1 (fst (prune tr1 f2)).
Proof.
  intros tr1. split; [|split].
  - unfold tr1. simpl. destruct (prune newPlugin f1) as [t1 o1]. simpl.
    destruct (prune t1 f2). reflexivity.
  - apply traverse_body_grows, seedingVisitor_grows.
  - apply prune_grows.
Qed.

(** After [secretFile], the element [<Secret/>] of [publicFile] is
    removed; pruned by a new instance, [publicFile] is left as it is. *)
Lemma tracker_leaks_between_files :
  snd (build false newPlugin [secretFile; publicFile])
  <> [snd (prune newPlugin secretFile); snd (prune newPlugin publicFile)].
Proof. vm_compute. intros H. discriminate H. Qed.

(** ** Annotated imports of protected modules (claim C5) *)

(** C5.  The ImportDeclaration visitor keeps an import whose module or
    imported names are protected and leaves the tracker alone,
    annotated or not; [reactFile] comes back as it is.  But the kept
    declaration is not safe from the Identifier visitor, which exempts
    the local name of a named and of a default specifier and not that
    of a namespace specifier: in [namespaceFile] the protected import
    comes back as [import * as undefined from 'react-native']. *)
Theorem protected_import_is_rewritten :
  (forall lines c prev tr m source specifiers,
      isCriticalImport source (importedNames specifiers) = true ->
      mainVisitor lines c prev tr (ImportDeclaration m source specifiers) = (tr, Keep))
  /\ prune newPlugin reactFile = (newPlugin, Some reactFile)
  /\ (forall lines c prev tr ms mi x,
        has tr x = true -> includes_str CRITICAL_IMPORTS x = false ->
        mainVisitor lines (child_ctx c (ImportSpecifier ms (Identifier mi x) (Identifier mi x)))
                    prev tr (Identifier mi x) = (tr, Keep)
        /\ mainVisitor lines (child_ctx c (ImportDefaultSpecifier ms (Identifier mi x)))
                       prev tr (Identifier mi x) = (tr, Keep)
        /\ mainVisitor lines (child_ctx c (ImportNamespaceSpecifier ms (Identifier mi x)))
                       prev tr (Identifier mi x) = (tr, Replace undefinedIdentifier))
  /\ prune newPlugin namespaceFile
     = (["RN"],
        Some (mkFile [marker 1; marker 4]
                [ namespaceImport undefinedIdentifier;
                  FunctionDeclaration (at_line 3) (ident 3 "f") [] (block 3 []) ])).
Proof.
  split; [|split; [vm_compute; reflexivity | split; [|vm_compute; reflexivity]]].
  - intros lines c prev tr m source specifiers H. cbn [mainVisitor].
    destruct (_ || _); [reflexivity|].
    destruct (_ || _); [|reflexivity]. rewrite H. reflexivity.
  - intros lines c prev tr ms mi x Hx Hc.
    cbn [mainVisitor replaceWithEmptyIfNeeded]. rewrite Hc, Hx.
    repeat split; reflexivity.
Qed.

(** ** Pruning a pruned tree again (claim C10) *)

(** C10.  The pass is not idempotent.  In [useBeforeImportFile] the
    first pass removes the annotated import and hands its comment to
    the statement before it; that statement, left in place by the first
    pass, is removed by a second pass, whether the second pass is made
    by a new plugin instance or by the same one. *)
Theorem second_pass_removes_more :
  prune newPlugin useBeforeImportFile
  = (["Secret"], Some (mkFile [marker 2] [showSecret (trailed 2 1)]))
  /\ prune newPlugin (mkFile [marker 2] [showSecret (trailed 2 1)])
     = ([], Some (mkFile [marker 2] []))
  /\ prune ["Secret"] (mkFile [marker 2] [showSecret (trailed 2 1)])
     = (["Secret"], Some (mkFile [marker 2] [])).
Proof. repeat split; vm_compute; reflexivity. Qed.

(** ** References to a tracked name (claim C3) *)

Lemma refersTo_set_meta N c n m : refersTo N c (set_meta n m) = refersTo N c n.
Proof. destruct n; reflexivity. Qed.

Lemma refersTo_rebuild N c n ps : refersTo N c (rebuild n ps) = refersTo N c n.
Proof.
  destruct n; try reflexivity; cbn [rebuild];
    repeat match goal with
           | |- context [match ?l with [] => _ | _ :: _ => _ end] => destruct l
           | |- context [match ?p with Single _ _ => _ | Multiple _ _ => _ end] => destruct p
           end; reflexivity.
Qed.

Lemma refersTo_ctx N c c' n :
  a_type (parent c) = a_type (parent c') -> refersTo N c n = refersTo N c' n.
Proof.
  intros E. destruct n; try reflexivity. cbn [refersTo].
  unfold isImportSpecifierP, isImportDefaultSpecifierP, isImportNamespaceSpecifierP.
  rewrite E. reflexivity.
Qed.

(** Once [N] is tracked, the visitors of the main traversal keep no
    node that binds to [N]. *)
Lemma main_keeps_no_reference N lines c prev tr n tr' :
  includes_str CRITICAL_IMPORTS N = false ->
  has tr N = true ->
  mainVisitor lines c prev tr n = (tr', Keep) ->
  refersTo N c n = false.
Proof.
  intros Hc HN H. destruct n; try reflexivity.
  - cbn [refersTo]. destruct (name =? N) eqn:E; [|reflexivity].
    apply String.eqb_eq in E. subst name.
    cbn [mainVisitor replaceWithEmptyIfNeeded] in H. rewrite Hc, HN in H.
    cbn [andb] in H.
    destruct (negb (isImportSpecifierP c) && negb (isImportDefaultSpecifierP c)) eqn:E2;
      [discriminate H|].
    cbn [andb]. rewrite E2. reflexivity.
  - cbn [refersTo]. destruct (elementName name) as [x|] eqn:Ex; [|reflexivity].
    cbn [str_eq_opt]. destruct (x =? N) eqn:E; [|reflexivity].
    apply String.eqb_eq in E. subst x. exfalso.
    cbn [mainVisitor] in H. unfold shouldRemoveNode in H. cbn [meta_of] in H.
    destruct (hasEmployeeCodeComment _); [discriminate H|].
    destruct (_ || _); [discriminate H|].
    rewrite Ex, HN in H. discriminate H.
Qed.

Lemma has_grows tr tr' s : grows tr tr' -> has tr s = true -> has tr' s = true.
Proof. intros G H. apply has_In. apply G. apply has_In. exact H. Qed.

(** C3, as the code has it.  Once a name [N] that is not protected is
    in the tracker, whatever the main traversal returns for a node it
    visits from then on holds no identifier [N] outside the binding of
    an import and no element whose tag is [N].  So, for a name that is
    tracked when the main traversal starts (by the seeding traversal,
    or by an earlier file), the pruned file holds none, when the pass
    returns. *)
Theorem cascade_after_tracking (N : string) :
  includes_str CRITICAL_IMPORTS N = false ->
  (forall fuel lines c prev tr n s,
      In N tr ->
      r_outcome (traverse (mainVisitor lines) fuel c prev tr n) = Stays s ->
      any_node (refersTo N) c s = false)
  /\ (forall tr f tr' f',
        In N (fst (traverse_body seedingVisitor tr (body f))) ->
        prune tr f = (tr', Some f') ->
        any_stmt (refersTo N) (body f') = false).
Proof.
  intros Hc.
  assert (HT : forall lines c prev tr n,
             has tr N = true -> has (fst (mainVisitor lines c prev tr n)) N = true).
  { intros. eapply has_grows; [apply mainVisitor_grows | assumption]. }
  split.
  - intros fuel lines c prev tr n s HN.
    apply (@traverse_clean (mainVisitor lines) (refersTo N) (fun t => has t N = true)).
    + apply HT.
    + intros. eapply main_keeps_no_reference; eassumption.
    + apply refersTo_set_meta.
    + apply refersTo_rebuild.
    + apply refersTo_ctx.
    + reflexivity.
    + apply has_In. exact HN.
  - intros tr f tr' f' HN. unfold prune.
    destruct (traverse_body seedingVisitor tr (body f)) as [tr1 [body1|]];
      [|discriminate].
    cbn [fst] in HN.
    destruct (traverse_body _ tr1 body1) as [tr2 [body2|]] eqn:E; [|discriminate].
    intros H. injection H as _ <-. cbn [body].
    apply (@traverse_body_clean
             (mainVisitor (findEmployeeCodeCommentLines (comments f)))
             (refersTo N) (fun t => has t N = true)) with (tr := tr1) (stmts := body1).
    + apply HT.
    + intros. eapply main_keeps_no_reference; eassumption.
    + apply refersTo_set_meta.
    + apply refersTo_rebuild.
    + apply refersTo_ctx.
    + reflexivity.
    + apply has_In. exact HN.
    + rewrite E. reflexivity.
Qed.

(** The theorem at [aliasBehindExportFile] and the name [Y]. *)
Lemma cascade_after_tracking_witness :
  any_stmt (refersTo "Y")
    [ exportDefault (marked 1 3) (aliasInFunction undefinedIdentifier) ] = false.
Proof.
  apply (proj2 (@cascade_after_tracking "Y" eq_refl) newPlugin aliasBehindExportFile
               ["Y"]
               (mkFile [marker 1]
                  [ exportDefault (marked 1 3) (aliasInFunction undefinedIdentifier) ])).
  - vm_compute. auto.
  - vm_compute. reflexivity.
Defined.

(** The claim as stated fails twice.  A reference visited before the
    name is tracked stays: in [useBeforeImportFile] the import is
    removed and [Secret] tracked, and [show(Secret)] is still there.
    And an element whose tag is a member of the name stays: in
    [memberTagFile] the import of [N] is removed, and [<N.Panel/>] is
    still there. *)
Lemma tracked_name_still_bound :
  (prune newPlugin useBeforeImportFile
   = (["Secret"], Some (mkFile [marker 2] [showSecret (trailed 2 1)]))
   /\ any_stmt (refersTo "Secret") [showSecret (trailed 2 1)] = true)
  /\ (prune newPlugin memberTagFile
      = (["N"], Some (mkFile [marker 1] [exportDefault (marked 1 3) panelApp]))
      /\ any_stmt (memberOf "N") [exportDefault (marked 1 3) panelApp] = true).
Proof. repeat split; vm_compute; reflexivity. Qed.

(** With [undefined] itself tracked, the replacement of a tracked
    identifier is visited, replaced again, and so on: whatever the
    budget, the traversal does not return. *)
Lemma undefined_tracked_never_returns fuel lines c prev tr m x :
  has tr "undefined" = true -> has tr x = true ->
  includes_str CRITICAL_IMPORTS x = false ->
  isImportSpecifierP c = false -> isImportDefaultSpecifierP c = false ->
  r_outcome (traverse (mainVisitor lines) fuel c prev tr (Identifier m x)) = Throws.
Proof.
  intros Hu Hx Hc H1 H2. revert m x Hx Hc.
  induction fuel as [|k IH]; intros m x Hx Hc; [reflexivity|].
  rewrite traverse_S. cbn [isNull mainVisitor replaceWithEmptyIfNeeded].
  rewrite Hc, Hx, H1, H2. cbn [andb negb isNull undefinedIdentifier r_outcome].
  apply IH; [exact Hu | reflexivity].
Qed.

(** ** Elements styled by a removed style entry (claim C4) *)







(** An entry written as a method has a key as well: the seeding
    traversal tracks it, and the element goes; no visitor removes the
    method. *)
Lemma method_entry_is_tracked :
  prune newPlugin methodTableFile
  = (["styles.debugPanel"],
     Some (mkFile [marker 3]
             [ const (at_line 1) 1 "styles"
                 (styleCall 1 [ entry (at_line 2) 2 (ident 2 "container");
                                methodEntry ]) ])).
Proof. vm_compute. reflexivity. Qed.

(** * More properties of the plugin and of its callers *)

(** ** The annotation and the protection test *)

Lemma isCriticalImport_spec src names :
  isCriticalImport src names
  = includes_str CRITICAL_MODULES src || existsb (includes_str CRITICAL_IMPORTS) names.
Proof.
  unfold isCriticalImport.
  destruct (includes_str CRITICAL_MODULES src); [reflexivity|].
  destruct (existsb _ names); [|now rewrite andb_false_r].
  destruct (_ && _); reflexivity.
Qed.

Lemma prefix_append p : forall s, prefix p s = true <-> exists post, s = p ++ post.
Proof.
  induction p as [|a p IH]; intros s; simpl.
  - split; [intros _; exists s; reflexivity | intros _; destruct s; reflexivity].
  - destruct s as [|b s]; simpl.
    + split; [discriminate | intros [post H]; discriminate H].
    + destruct (Ascii.ascii_dec a b) as [->|Hab].
      * rewrite IH. split; intros [post H]; exists post; [now rewrite H | now injection H].
      * split; [discriminate | intros [post H]; injection H as H _; congruence].
Qed.

Lemma includes_append needle : forall hay,
  includes hay needle = true <-> exists pre post, hay = pre ++ needle ++ post.
Proof.
  induction hay as [|a hay IH]; cbn [includes].
  - destruct (prefix needle "") eqn:E.
    + split; [intros _|reflexivity]. apply prefix_append in E as [post E].
      exists "", post. exact E.
    + split; [discriminate|]. intros (pre & post & H).
      destruct pre; simpl in H.
      * assert (prefix needle "" = true) by (apply prefix_append; eauto). congruence.
      * discriminate H.
  - destruct (prefix needle (String a hay)) eqn:E.
    + split; [intros _|reflexivity]. apply prefix_append in E as [post E].
      exists "", post. exact E.
    + rewrite IH. split.
      * intros (pre & post & ->). exists (String a pre), post. reflexivity.
      * intros (pre & post & H). destruct pre as [|b pre]; simpl in H.
        -- assert (prefix needle (String a hay) = true) by (apply prefix_append; eauto).
           congruence.
        -- injection H as _ ->. eauto.
Qed.

(** X1.  A list of comments holds the annotation exactly when the text
    [@employee-code] occurs somewhere in the value of one of them: at
    its start, at its end or inside other text. *)
Theorem annotation_is_substring (cs : list comment) :
  hasEmployeeCodeComment cs = true <->
  exists c pre post, In c cs /\ value c = pre ++ "@employee-code" ++ post.
Proof.
  unfold hasEmployeeCodeComment, isEmployeeCodeComment. rewrite existsb_exists. split.
  - intros (c & Hc & H). apply includes_append in H as (pre & post & H). eauto.
  - intros (c & pre & post & Hc & H). exists c. split; [assumption|].
    apply includes_append. eauto.
Qed.

(** X2.  An import is protected exactly when its module is one of
    [CRITICAL_MODULES] or one of its imported names is one of
    [CRITICAL_IMPORTS], from whatever module it comes: the test on
    [react-native] in between (line 43) changes nothing. *)
Theorem protected_import_rule (source : string) (importedNames : list string) :
  isCriticalImport source importedNames = true <->
  In source CRITICAL_MODULES \/ exists x, In x importedNames /\ In x CRITICAL_IMPORTS.
Proof.
  rewrite isCriticalImport_spec, orb_true_iff, includes_str_In, existsb_exists.
  split; (intros [H | (x & Hx & Hc)]; [left; exact H | right; exists x; split; [exact Hx|]]);
    apply includes_str_In; exact Hc.
Qed.

(** ** The two style checks of the JSXElement visitor *)

Lemma usesRemovedStyle_hasStyleProp tr attributes :
  has tr "styles.undefined" = false ->
  usesRemovedStyle tr attributes = true -> hasStyleProp tr attributes = true.
Proof.
  intros Hu. unfold usesRemovedStyle, hasStyleProp. rewrite !existsb_exists.
  intros (a & Ha & H). exists a. split; [assumption|].
  destruct a; try discriminate H. destruct a; try discriminate H.
  destruct a; try discriminate H.
  apply andb_true_iff in H as [H Hkey]. apply andb_true_iff in H as [Hstyle Hobj].
  rewrite Hstyle. cbn [andb].
  destruct a1; try discriminate Hobj. cbn [isIdentifier andb].
  destruct a2; unfold styleKey in Hkey; cbn [name_of append] in Hkey;
    try congruence.
  exact Hkey.
Qed.

Lemma kept_element_has_no_removed_style prev lines tr m opening name attributes children :
  snd (shouldRemoveNode prev lines tr (JSXElement m opening name attributes children))
  = false ->
  hasStyleProp tr attributes = false.
Proof.
  unfold shouldRemoveNode.
  destruct (hasEmployeeCodeComment _); [discriminate|].
  destruct (_ || _); [discriminate|].
  destruct (match elementName name with Some _ => _ | None => _ end); [discriminate|].
  destruct (onEmployeeCodeLine _ _); [discriminate|].
  destruct (hasStyleProp tr attributes); [discriminate | reflexivity].
Qed.

(** X3.  Unless the name [styles.undefined] is tracked, the style check
    that the JSXElement visitor makes after [shouldRemoveNode] has
    answered no (lines 384-402) finds nothing that the style check of
    [shouldRemoveNode] itself (lines 150-165) has not found: the visitor
    removes an element exactly when [shouldRemoveNode] says so. *)
Theorem style_fallback_is_covered (tr : tracker) (attributes : list node) :
  has tr "styles.undefined" = false ->
  (usesRemovedStyle tr attributes = true -> hasStyleProp tr attributes = true)
  /\ forall lines c prev m opening name children,
       mainVisitor lines c prev tr (JSXElement m opening name attributes children)
       = (tr, if snd (shouldRemoveNode prev (Some lines) tr
                        (JSXElement m opening name attributes children))
              then Remove else Keep).
Proof.
  intros Hu. split; [now apply usesRemovedStyle_hasStyleProp|].
  intros lines c prev m opening name children. cbn [mainVisitor].
  pose proof (shouldRemoveNode_element prev (Some lines) tr m opening name
                attributes children) as E.
  pose proof (@kept_element_has_no_removed_style prev (Some lines) tr m opening name
                attributes children) as K.
  destruct (shouldRemoveNode _ _ _ _) as [tr1 b]. cbn [fst snd] in *. subst tr1.
  destruct b; [reflexivity|].
  destruct (usesRemovedStyle tr attributes) eqn:Eu; [|reflexivity].
  rewrite (usesRemovedStyle_hasStyleProp _ _ Hu Eu) in K. now discriminate K.
Qed.

(** The theorem at an element styled by a tracked entry. *)
Lemma style_fallback_is_covered_witness :
  mainVisitor [] top_ctx Null ["styles.debugPanel"]
    (element 8 "View" [styleAttr 8 "debugPanel"] [])
  = (["styles.debugPanel"], Remove).
Proof.
  exact (proj2 (@style_fallback_is_covered ["styles.debugPanel"]
                  [styleAttr 8 "debugPanel"] eq_refl)
               [] top_ctx Null (at_line 8) (at_line 8) (JSXIdentifier "View") []).
Defined.

(** ** A tracker that holds more names *)

Lemma existsb_impl {A} (f g : A -> bool) l :
  (forall x, f x = true -> g x = true) -> existsb f l = true -> existsb g l = true.
Proof.
  intros H. rewrite !existsb_exists. intros (x & Hx & Hf). exists x. auto.
Qed.

Lemma hasStyleProp_grows tr tr' attrs :
  grows tr tr' -> hasStyleProp tr attrs = true -> hasStyleProp tr' attrs = true.
Proof.
  intros G. apply existsb_impl. intros a H.
  destruct a; try discriminate H. destruct a; try discriminate H.
  destruct a; try discriminate H.
  apply andb_true_iff in H as [H Hkey]. rewrite H. cbn [andb].
  destruct a2; try discriminate Hkey. now apply (has_grows _ G).
Qed.

Lemma usesRemovedStyle_grows tr tr' attrs :
  grows tr tr' -> usesRemovedStyle tr attrs = true -> usesRemovedStyle tr' attrs = true.
Proof.
  intros G. apply existsb_impl. intros a H.
  destruct a; try discriminate H. destruct a; try discriminate H.
  destruct a; try discriminate H.
  apply andb_true_iff in H as [H Hkey]. rewrite H. cbn [andb].
  now apply (has_grows _ G).
Qed.

Lemma shouldRemoveNode_grows prev lines tr tr' n :
  grows tr tr' ->
  snd (shouldRemoveNode prev lines tr n) = true ->
  snd (shouldRemoveNode prev lines tr' n) = true.
Proof.
  intros G. unfold shouldRemoveNode.
  destruct (hasEmployeeCodeComment _).
  - destruct n; try (intros _; reflexivity).
    destruct (isCriticalImport _ _); [discriminate | reflexivity].
  - destruct n; try discriminate.
    + (* LogicalExpression *)
      destruct (operator =? "&&"); [|discriminate]. cbn [andb].
      destruct (truthy (name_of n1)) as [x|]; [|discriminate].
      destruct (has tr x) eqn:E; [|discriminate].
      now rewrite (has_grows _ G E).
    + (* JSXElement *)
      destruct (_ || _); [reflexivity|].
      destruct (elementName name) as [x|].
      * destruct (has tr x) eqn:E.
        -- now rewrite (has_grows _ G E).
        -- destruct (has tr' x); [reflexivity|].
           destruct (onEmployeeCodeLine _ _); [reflexivity|].
           destruct (hasStyleProp tr attributes) eqn:Es; [|discriminate].
           now rewrite (hasStyleProp_grows _ G Es).
      * destruct (onEmployeeCodeLine _ _); [reflexivity|].
        destruct (hasStyleProp tr attributes) eqn:Es; [|discriminate].
        now rewrite (hasStyleProp_grows _ G Es).
    + (* JSXExpressionContainer *)
      destruct n; try discriminate. destruct n1; try discriminate.
      destruct (operator =? "&&"); [|discriminate]. cbn [andb].
      destruct (negb (name =? "")); [|discriminate]. cbn [andb].
      destruct (has tr name) eqn:E.
      * now rewrite (has_grows _ G E).
      * cbn [orb]. destruct (name =? "IS_EMPLOYEE_MODE"); [|discriminate].
        now rewrite orb_true_r.
    + (* ImportDeclaration *)
      destruct (_ && _); [|discriminate].
      destruct (isCriticalImport _ _); [discriminate | reflexivity].
    + (* VariableDeclarator *)
      destruct n2; try discriminate.
      destruct (has tr name) eqn:E; [|discriminate].
      now rewrite (has_grows _ G E).
Qed.

(** The JSXExpressionContainer visitor asks for the container's own
    annotation only after [shouldRemoveNode] has answered no, and then
    there is none. *)
Lemma unannotated_when_not_removed prev lines tr m e :
  snd (shouldRemoveNode prev lines tr (JSXExpressionContainer m e)) = false ->
  hasDirectComment m = false.
Proof.
  unfold shouldRemoveNode. cbn [meta_of]. rewrite hasDirectComment_app.
  destruct (hasDirectComment m); [discriminate | reflexivity].
Qed.

(** X4.  Tracking more never spares a node.  With a tracker that holds
    at least the same names, [shouldRemoveNode] still answers yes where
    it did, and a visitor of the main traversal that removed or
    replaced a node does the same to it. *)
Theorem larger_tracker_removes_more (tr tr' : tracker) :
  grows tr tr' ->
  (forall prev lines n,
      snd (shouldRemoveNode prev lines tr n) = true ->
      snd (shouldRemoveNode prev lines tr' n) = true)
  /\ (forall lines c prev n,
        snd (mainVisitor lines c prev tr n) <> Keep ->
        snd (mainVisitor lines c prev tr' n) = snd (mainVisitor lines c prev tr n)).
Proof.
  intros G. split; [intros; eapply shouldRemoveNode_grows; eassumption|].
  intros lines c prev n.
  destruct n; cbn [mainVisitor]; try (cbn [snd]; congruence).
  - (* Identifier *)
    destruct (includes_str CRITICAL_IMPORTS name) eqn:Ec; [cbn [snd]; congruence|].
    destruct (has tr name) eqn:E; cbn [andb]; [|cbn [snd]; congruence].
    rewrite (has_grows _ G E). cbn [andb].
    destruct (_ && _); [|cbn [snd]; congruence].
    cbn [replaceWithEmptyIfNeeded snd]. now rewrite E, (has_grows _ G E).
  - (* ObjectProperty *)
    destruct (hasDirectComment m); cbn [snd]; congruence.
  - (* LogicalExpression *)
    destruct (_ && _); cbn [snd]; congruence.
  - (* JSXElement *)
    pose proof (@shouldRemoveNode_grows prev (Some lines) tr tr'
                  (JSXElement m openingElement name attributes children) G) as Hs.
    pose proof (shouldRemoveNode_element prev (Some lines) tr m openingElement name
                  attributes children) as E1.
    pose proof (shouldRemoveNode_element prev (Some lines) tr' m openingElement name
                  attributes children) as E2.
    destruct (shouldRemoveNode prev (Some lines) tr _) as [t1 b1].
    destruct (shouldRemoveNode prev (Some lines) tr' _) as [t2 b2].
    cbn [fst snd] in *. subst t1 t2.
    destruct b1.
    + rewrite (Hs eq_refl). reflexivity.
    + destruct (usesRemovedStyle tr attributes) eqn:Eu; cbn [snd]; [|congruence].
      intros _. destruct b2; [reflexivity|].
      now rewrite (usesRemovedStyle_grows _ G Eu).
  - (* JSXExpressionContainer *)
    pose proof (@shouldRemoveNode_grows prev None tr tr'
                  (JSXExpressionContainer m n) G) as Hs.
    pose proof (shouldRemoveNode_container prev None tr m n) as E1.
    pose proof (shouldRemoveNode_container prev None tr' m n) as E2.
    pose proof (unannotated_when_not_removed prev None tr m n) as U1.
    destruct (shouldRemoveNode prev None tr _) as [t1 b1].
    destruct (shouldRemoveNode prev None tr' _) as [t2 b2].
    cbn [fst snd] in *. subst t1 t2.
    destruct b1.
    + rewrite (Hs eq_refl). reflexivity.
    + rewrite (U1 eq_refl). cbn [snd]. congruence.
  - (* ImportDeclaration *)
    destruct (_ || _); [cbn [snd]; congruence|].
    destruct (_ || _); [|cbn [snd]; congruence].
    destruct (isCriticalImport _ _); cbn [snd]; congruence.
  - destruct (hasDirectComment m); cbn [snd]; congruence.
  - destruct (hasDirectComment m); cbn [snd]; congruence.
  - destruct (hasDirectComment m); cbn [snd]; congruence.
  - destruct (hasDirectComment m); cbn [snd]; congruence.
Qed.

(** The theorem at the trackers [Secret] and [Secret, Other]. *)
Lemma larger_tracker_removes_more_witness :
  snd (shouldRemoveNode Null None ["Secret"; "Other"] (element 2 "Secret" [] [])) = true.
Proof.
  refine (proj1 (@larger_tracker_removes_more ["Secret"] ["Secret"; "Other"] _)
                Null None (element 2 "Secret" [] []) eq_refl).
  intros s [<- | []]. simpl. auto.
Defined.

(** ** The tracker as an insertion-ordered set *)














Lemma truthy_Some s : s <> "" -> truthy (Some s) = Some s.
Proof.
  intros H. unfold truthy. destruct (s =? "") eqn:E; [|reflexivity].
  apply String.eqb_eq in E. contradiction.
Qed.

(** ** The names an import binds *)

(** X6.  When the ImportDeclaration visitor removes an import, the
    tracker holds afterwards what it held before and the names the
    import binds locally, and nothing else: the alias of a named import,
    the name of a default import, the name of a namespace import. *)
Theorem removed_import_tracks_its_bindings
        (lines : list nat) (c : context) (prev : node) (tr tr' : tracker)
        (m : meta) (source : string) (specifiers : list node) :
  mainVisitor lines c prev tr (ImportDeclaration m source specifiers) = (tr', Remove) ->
  (forall x, In x tr' <-> In x tr \/ In x (importedNames specifiers))
  /\ (forall x, In x (importedNames specifiers) <->
                exists spec, In spec specifiers /\ specifierName spec = Some x /\ x <> "")
  /\ (forall ms mi ml a b,
        specifierName (ImportSpecifier ms (Identifier mi a) (Identifier ml b)) = Some b)
  /\ (forall ms ml b, specifierName (ImportDefaultSpecifier ms (Identifier ml b)) = Some b)
  /\ (forall ms ml b, specifierName (ImportNamespaceSpecifier ms (Identifier ml b)) = Some b).
Proof.
  intros H. cbn [mainVisitor] in H.
  destruct (_ || _); [discriminate H|].
  destruct (_ || _); [|discriminate H].
  destruct (isCriticalImport source (importedNames specifiers)) eqn:Ec; [discriminate H|].
  injection H as <-.
  rewrite isCriticalImport_spec in Ec. apply orb_false_iff in Ec as [_ Ec].
  split; [|split; [|repeat split]].
  - intros x. rewrite In_add_unless_critical. split; [tauto|].
    intros [Hx | Hx]; [auto|]. right. split; [assumption|].
    rewrite existsb_false, Forall_forall in Ec. auto.
  - intros x. unfold importedNames. rewrite in_flat_map. split.
    + intros (spec & Hs & Hx). exists spec. split; [assumption|].
      unfold truthy in Hx. destruct (specifierName spec) as [y|]; [|destruct Hx].
      destruct (y =? "") eqn:E; [destruct Hx|]. destruct Hx as [<- | []].
      split; [reflexivity|]. intros ->. discriminate E.
    + intros (spec & Hs & Hn & Hx). exists spec. split; [assumption|].
      rewrite Hn, (truthy_Some Hx). simpl. auto.
Qed.

(** The theorem at the import of [useBeforeImportFile]. *)
Lemma removed_import_tracks_its_bindings_witness :
  In "Secret" ["Secret"] <->
  In "Secret" [] \/ In "Secret" (importedNames
                                   [ImportDefaultSpecifier (at_line 2) (ident 2 "Secret")]).
Proof.
  exact (proj1 (@removed_import_tracks_its_bindings [2; 3] top_ctx Null [] ["Secret"]
                  (mkMeta [] [marker 2] (Some 2)) "./Secret"
                  [ImportDefaultSpecifier (at_line 2) (ident 2 "Secret")] eq_refl)
               "Secret").
Defined.


(** ** Files without the annotation *)

Lemma findEmployeeCodeCommentLines_none cs :
  hasEmployeeCodeComment cs = false -> findEmployeeCodeCommentLines cs = [].
Proof.
  unfold hasEmployeeCodeComment, findEmployeeCodeCommentLines.
  induction cs as [|c cs IH]; cbn [existsb flat_map]; [reflexivity|].
  intros H. apply orb_false_iff in H as [Hc H]. rewrite Hc. now apply IH.
Qed.

Lemma subnodes_trans n : forall x y,
  In x (subnodes n) -> In y (subnodes x) -> In y (subnodes n).
Proof.
  induction n as [n IH] using node_by_fields. intros x y Hx Hy.
  apply subnodes_inv in Hx as [-> | (p & z & Hp & Hz & Hx)]; [assumption|].
  eapply subnodes_child; eauto.
Qed.

Lemma plain_meta n : plain n -> hasDirectComment (meta_of n) = false.
Proof.
  intros H. specialize (H n (subnodes_self n)). unfold annotatedOrGuarded in H.
  now apply orb_false_iff in H as [H _].
Qed.

Lemma plain_Null : plain Null.
Proof. intros y [<- | []]. reflexivity. Qed.

Lemma quiet_Null tr : quiet tr Null.
Proof. split; [apply plain_Null|]. intros y [<- | []]. reflexivity. Qed.

Lemma trackStyles_plain properties : forall tr,
  (forall p, In p properties -> hasDirectComment (meta_of p) = false) ->
  trackStyles tr properties = tr.
Proof.
  unfold trackStyles.
  induction properties as [|p ps IH]; intros tr H; cbn [fold_left]; [reflexivity|].
  rewrite (H p (or_introl eq_refl)). apply IH. intros q Hq. apply H. now right.
Qed.

(** The seeding traversal passes over a plain tree. *)
Lemma seedingVisitor_plain c prev tr n :
  plain n -> seedingVisitor c prev tr n = (tr, Keep).
Proof.
  intros Hn. pose proof (plain_meta Hn) as Hm.
  destruct n; cbn [seedingVisitor meta_of] in *; try reflexivity.
  - destruct n; try reflexivity.
    destruct (_ && _); [|reflexivity].
    destruct arguments as [|a l]; [reflexivity|]. destruct a; try reflexivity.
    rewrite trackStyles_plain; [reflexivity|].
    intros p Hp. apply plain_meta. intros y Hy. apply Hn.
    cbn [subnodes]. right. apply in_or_app. right.
    cbn [flat_map subnodes]. right. apply in_or_app. left.
    apply in_flat_map. eauto.
  - now rewrite Hm.
Qed.

Lemma has_nil s : has [] s = false.
Proof. reflexivity. Qed.

Lemma hasStyleProp_nil attributes : hasStyleProp [] attributes = false.
Proof.
  unfold hasStyleProp. apply existsb_false, Forall_forall. intros a _.
  destruct a; try reflexivity.
  repeat match goal with
         | |- context [match ?x with _ => _ end] =>
             is_var x; destruct x; try reflexivity
         end.
  all: rewrite ?has_nil, ?andb_false_r; reflexivity.
Qed.

Lemma usesRemovedStyle_nil attributes : usesRemovedStyle [] attributes = false.
Proof.
  unfold usesRemovedStyle. apply existsb_false, Forall_forall. intros a _.
  destruct a; try reflexivity.
  repeat match goal with
         | |- context [match ?x with _ => _ end] =>
             is_var x; destruct x; try reflexivity
         end.
  all: rewrite ?has_nil, ?andb_false_r; reflexivity.
Qed.

Lemma mentions_nil n : mentions [] n = false.
Proof.
  destruct n; cbn [mentions]; try reflexivity.
  rewrite hasStyleProp_nil, usesRemovedStyle_nil.
  destruct (elementName name); reflexivity.
Qed.

(** With no annotation line, the main traversal passes over a quiet
    node that follows a plain one. *)
Lemma mainVisitor_quiet c prev tr n :
  quiet tr n -> plain prev -> mainVisitor [] c prev tr n = (tr, Keep).
Proof.
  intros [Hn Hu] Hp.
  pose proof (plain_meta Hn) as Hm. pose proof (plain_meta Hp) as Hq.
  pose proof (Hn n (subnodes_self n)) as Ha. unfold annotatedOrGuarded in Ha.
  apply orb_false_iff in Ha as [_ Ha].
  pose proof (Hu n (subnodes_self n)) as Hs.
  destruct n; cbn [mainVisitor meta_of mentions] in *; rewrite ?Hm, ?Hq, ?andb_false_r;
    cbn [orb andb]; try reflexivity.
  - rewrite Hs. destruct (includes_str _ _); reflexivity.
  - unfold shouldRemoveNode. cbn [meta_of]. rewrite hasDirectComment_app, Hm.
    unfold hasDirectComment in Ha. apply orb_false_iff in Ha as [-> ->]. cbn [orb].
    apply orb_false_iff in Hs as [Hs Hs3]. apply orb_false_iff in Hs as [Hs1 Hs2].
    rewrite Hs1, Hs2.
    assert (E : onEmployeeCodeLine m (Some []) = false).
    { unfold onEmployeeCodeLine. destruct (loc m); reflexivity. }
    rewrite E. cbv beta iota zeta. rewrite Hs3. reflexivity.
  - unfold shouldRemoveNode. cbn [meta_of]. rewrite hasDirectComment_app, Hm.
    destruct n; try reflexivity. destruct n1; try reflexivity.
    cbn [guardedByMode] in Ha.
    assert (Hl : has tr name = false).
    { apply (Hu (Identifier m1 name)). cbn [subnodes flat_map]. simpl. auto. }
    rewrite Hl. cbn [orb].
    rewrite <- andb_assoc, (andb_comm (negb _)), andb_assoc, Ha. reflexivity.
  - destruct (_ || _); reflexivity.
Qed.

(** A file without annotation comments whose statements are quiet is
    passed by both traversals. *)
Lemma quiet_file_is_passed tr f :
  hasEmployeeCodeComment (comments f) = false ->
  (forall x, In x (nodes_of (body f)) -> quiet tr x) ->
  prune tr f = (tr, Some f).
Proof.
  intros Hc Hq.
  unfold prune. rewrite (findEmployeeCodeCommentLines_none _ Hc).
  destruct (@traverse_body_kept seedingVisitor (quiet tr) (fun t => t = tr)
              (quiet_Null tr))
    with (tr := tr) (stmts := body f) as (tr1 & E1 & -> & _);
    [ | apply seedingVisitor_grows | reflexivity | exact Hq | ].
  { intros c prev t n -> [Hn _] _. rewrite (seedingVisitor_plain c prev tr Hn). auto. }
  rewrite E1.
  destruct (@traverse_body_kept (mainVisitor []) (quiet tr) (fun t => t = tr)
              (quiet_Null tr))
    with (tr := tr) (stmts := body f) as (tr2 & E2 & -> & _);
    [ | apply mainVisitor_grows | reflexivity | exact Hq | ].
  { intros c prev t n -> Hn [Hp _]. rewrite (mainVisitor_quiet c Hn Hp). auto. }
  rewrite E2. destruct f; reflexivity.
Qed.

Lemma quiet_statements (q : node -> bool) stmts :
  any_stmt (fun _ => q) stmts = false ->
  forall x y, In x (nodes_of stmts) -> In y (subnodes x) -> q y = false.
Proof.
  intros H x y Hx Hy. apply (any_stmt_none _ _ H).
  apply in_flat_map in Hx as (s & Hs & Hx).
  eapply nodes_of_In; [exact Hs|]. eapply subnodes_trans; eauto.
Qed.

(** X12.  A file in which no comment and no node carries the
    annotation, and which has no container guarded by
    [IS_EMPLOYEE_MODE], comes out of a new plugin instance as it went
    in, and nothing is tracked. *)
Theorem unmarked_file_is_untouched (f : file) :
  hasEmployeeCodeComment (comments f) = false ->
  any_stmt annotatedOrGuarded (body f) = false ->
  prune newPlugin f = (newPlugin, Some f).
Proof.
  intros Hc Hb. apply quiet_file_is_passed; [exact Hc|].
  intros x Hx. split; intros y Hy.
  - eapply (quiet_statements _ _ Hb); eauto.
  - apply mentions_nil.
Qed.

(** The theorem at [publicFile]. *)
Lemma unmarked_file_is_untouched_witness :
  prune newPlugin publicFile = (newPlugin, Some publicFile).
Proof.
  apply (@unmarked_file_is_untouched publicFile); reflexivity.
Defined.

(** X15.  What the tracker holds on entry reaches only the files that
    mention it.  A file in which no comment and no node carries the
    annotation, which has no container guarded by [IS_EMPLOYEE_MODE],
    and in which no identifier, no element tag and no style attribute
    names something tracked, comes out as it went in, and the tracker
    is left as it was, whatever it holds. *)
Theorem tracker_touches_only_files_that_mention_it (tr : tracker) (f : file) :
  hasEmployeeCodeComment (comments f) = false ->
  any_stmt annotatedOrGuarded (body f) = false ->
  any_stmt (fun _ => mentions tr) (body f) = false ->
  prune tr f = (tr, Some f).
Proof.
  intros Hc Hb Hm. apply quiet_file_is_passed; [exact Hc|].
  intros x Hx. split; intros y Hy.
  - eapply (quiet_statements _ _ Hb); eauto.
  - eapply (quiet_statements _ _ Hm); eauto.
Qed.

(** The theorem at the tracker [Secret] and a file that shows a [View]. *)
Lemma tracker_touches_only_files_that_mention_it_witness :
  prune ["Secret"] (emptyViewFile []) = (["Secret"], Some (emptyViewFile [])).
Proof.
  apply (@tracker_touches_only_files_that_mention_it ["Secret"] (emptyViewFile []));
    reflexivity.
Defined.

(** ** When the plugin runs *)

Lemma endsWith_append suffix : forall s,
  endsWith s suffix = true <-> exists base, s = base ++ suffix.
Proof.
  induction s as [|a s IH]; cbn [endsWith].
  - rewrite orb_false_r. split.
    + intros H. apply String.eqb_eq in H. exists "". exact H.
    + intros [base H]. apply String.eqb_eq.
      destruct base; [exact H | discriminate H].
  - rewrite orb_true_iff, IH. split.
    + intros [H | [base ->]].
      * apply String.eqb_eq in H. exists "". exact H.
      * exists (String a base). reflexivity.
    + intros [base H]. destruct base as [|b base]; cbn [append] in H.
      * left. apply String.eqb_eq. exact H.
      * right. injection H as _ ->. eauto.
Qed.

Lemma build_keeps_everything files :
  forall tr, build true tr files = (tr, map Some files).
Proof.
  induction files as [|f files IH]; intros tr; cbn [build transform map]; [reflexivity|].
  now rewrite IH.
Qed.

(** X13.  The transformer adds the plugin, after the plugins already
    there, exactly for a file whose name ends in [.js], [.jsx], [.ts]
    or [.tsx] and when [INCLUDE_EMPLOYEE_CODE] is anything but the
    string [true] (not set at all included); [babel.config.js] lists the
    plugin under the same test; and with the value [true] a build
    leaves every file, and the tracker, as they were. *)
Theorem plugin_is_added_in_customer_mode
        (A : Type) (treeShakePlugin : A) (env : option string)
        (filename : string) (plugins : option (list A)) :
  (isScriptFile filename = true <->
   exists base ext, In ext [".tsx"; ".ts"; ".jsx"; ".js"] /\ filename = base ++ ext)
  /\ (includeEmployeeCode env = true <-> env = Some "true")
  /\ customPlugins treeShakePlugin env filename plugins
     = (if isScriptFile filename && negb (includeEmployeeCode env)
        then Some ((match plugins with Some l => l | None => [] end)
                     ++ [treeShakePlugin])%list
        else plugins)
  /\ (configPlugins env <> [] <-> includeEmployeeCode env = false)
  /\ (forall tr files,
        build (includeEmployeeCode (Some "true")) tr files = (tr, map Some files)).
Proof.
  split; [|split; [|split; [|split]]].
  - unfold isScriptFile. rewrite existsb_exists. split.
    + intros (ext & He & H). apply endsWith_append in H as [base H].
      exists base, ("." ++ ext). split; [|exact H].
      cbn [In] in He. cbn [In]. intuition (subst; auto).
    + intros (base & ext & He & ->). cbn [In] in He.
      destruct He as [<- | [<- | [<- | [<- | []]]]];
        [exists "tsx" | exists "ts" | exists "jsx" | exists "js"];
        (split; [cbn [In]; auto | apply endsWith_append; exists base; reflexivity]).
  - unfold includeEmployeeCode. destruct env as [v|].
    + rewrite String.eqb_eq. split; [intros -> | intros [= ->]]; reflexivity.
    + split; discriminate.
  - unfold customPlugins. destruct (isScriptFile filename); [|reflexivity].
    destruct (negb _); reflexivity.
  - unfold configPlugins. destruct (includeEmployeeCode env); cbn [negb].
    + split; [intros H; now contradiction H | discriminate].
    + split; [reflexivity | discriminate].
  - intros tr files. apply build_keeps_everything.
Qed.

Lemma find_first {A} (p : A -> bool) l x :
  find p l = Some x ->
  exists before after, l = (before ++ x :: after)%list /\ p x = true
                       /\ forallb (fun y => negb (p y)) before = true.
Proof.
  induction l as [|a l IH]; cbn [find]; [discriminate|].
  destruct (p a) eqn:E.
  - intros [= ->]. exists [], l. auto.
  - intros H. destruct (IH H) as (b & af & -> & Hp & Hb).
    exists (a :: b), af. cbn [forallb]. rewrite E. auto.
Qed.

(** X14.  The value that [run-with-no-cache.js] gives to
    [INCLUDE_EMPLOYEE_CODE] makes the transformer include employee code
    exactly when [--employee] is among the arguments; the command it
    runs carries that value and the platform, which is the first of
    [--ios], [--android] and [--web] among the arguments, or nothing
    when there is none. *)
Theorem run_script_sets_the_mode (args : list string) :
  (includeEmployeeCode (Some (envValue args)) = true <-> In "--employee" args)
  /\ (command args
      = "cross-env INCLUDE_EMPLOYEE_CODE=true expo start --clear " ++ platform args
      \/ command args
         = "cross-env INCLUDE_EMPLOYEE_CODE=false expo start --clear " ++ platform args)
  /\ (platform args = "" /\ (forall a, In a ["--ios"; "--android"; "--web"] -> ~ In a args)
      \/ exists before after,
           args = (before ++ platform args :: after)%list
           /\ In (platform args) ["--ios"; "--android"; "--web"]
           /\ forall a, In a ["--ios"; "--android"; "--web"] -> ~ In a before).
Proof.
  split; [|split].
  - unfold envValue, isEmployee. rewrite <- includes_str_In.
    unfold includeEmployeeCode. rewrite String.eqb_eq.
    destruct (includes_str args "--employee"); split; congruence.
  - unfold command, envValue. destruct (isEmployee args); auto.
  - unfold platform.
    destruct (find _ args) as [x|] eqn:E.
    + right. apply find_first in E as (b & af & -> & Hp & Hb).
      exists b, af. split; [reflexivity|]. split; [now apply includes_str_In|].
      intros a Ha Hin. rewrite forallb_forall in Hb. specialize (Hb a Hin).
      apply includes_str_In in Ha. rewrite Ha in Hb. discriminate Hb.
    + left. split; [reflexivity|]. intros a Ha Hin.
      pose proof (find_none _ _ E a Hin) as H. cbn beta in H.
      apply includes_str_In in Ha. congruence.
Qed.
